(** * Gas monitor: real-time alarm fan-out and client reconciliation

    A shallow embedding of the alarm/telemetry fan-out of the backend
    ([server.js]), of the client socket service ([socketService.js]), of the
    alarm views ([AlarmsTab.js], the alarm notification menu), of the alarm
    controller and of the client alarm service, with the properties of the
    design document stated over them. *)

From Stdlib Require Import Ascii.
From stdpp Require Import base strings gmap list sorting pretty.

Open Scope Z_scope.

(** ** JavaScript values *)

(** The primitive values that reach the code through JSON payloads.  Numbers
    are the integers: no payload field that the code inspects is fractional. *)
Inductive JsVal : Type :=
  | JUndefined
  | JNull
  | JBool (b : bool)
  | JNum (z : Z)
  | JStr (s : string).

#[global] Instance JsVal_eq_dec : EqDecision JsVal.
Proof. solve_decision. Defined.

#[global] Instance JsVal_inhabited : Inhabited JsVal := populate JUndefined.

(** A plain object: a finite map from property names to values. *)
Abbreviation JsObj := (gmap string JsVal).

Module JS.

(** [ToBoolean]. *)
Definition truthy (v : JsVal) : bool :=
  match v with
  | JUndefined | JNull => false
  | JBool b => b
  | JNum z => negb (z =? 0)
  | JStr s => negb (bool_decide (s = ""))
  end.

(** [a || b]. *)
Definition or (a b : JsVal) : JsVal := if truthy a then a else b.

(** [a === b] on primitives. *)
Definition strict_eq (a b : JsVal) : bool := bool_decide (a = b).

(** [o.k]: a missing property reads as [undefined]. *)
Definition get (o : JsObj) (k : string) : JsVal := default JUndefined (o !! k).

(** [typeof o.k !== 'undefined' ? o.k : d]. *)
Definition defined_or (v d : JsVal) : JsVal :=
  match v with JUndefined => d | _ => v end.

(** String conversion of a template literal, [`${v}`]. *)
Definition to_string (v : JsVal) : string :=
  match v with
  | JUndefined => "undefined"
  | JNull => "null"
  | JBool true => "true"
  | JBool false => "false"
  | JNum z => pretty z
  | JStr s => s
  end.

(** [String.prototype.toLowerCase], on ASCII letters. *)
Definition lower_ascii (c : ascii) : ascii :=
  let n := nat_of_ascii c in
  if (Nat.leb 65 n && Nat.leb n 90)%bool then ascii_of_nat (n + 32) else c.

Fixpoint toLowerCase (s : string) : string :=
  match s with
  | EmptyString => EmptyString
  | String c s' => String (lower_ascii c) (toLowerCase s')
  end.

(** [s.startsWith(p)]. *)
Fixpoint startsWith (s p : string) {struct p} : bool :=
  match p with
  | EmptyString => true
  | String a p' =>
      match s with
      | EmptyString => false
      | String b s' => Ascii.eqb a b && startsWith s' p'
      end
  end.

(** [s.includes(sub)]. *)
Fixpoint includes (s sub : string) : bool :=
  startsWith s sub ||
  match s with
  | EmptyString => false
  | String _ s' => includes s' sub
  end.

Fixpoint drop_chars (n : nat) (s : string) : string :=
  match n, s with
  | O, _ => s
  | S n', String _ s' => drop_chars n' s'
  | S _, EmptyString => EmptyString
  end.

(** [s.replace(pat, rep)] with a string pattern: the first occurrence only. *)
Fixpoint replace (s pat rep : string) : string :=
  if startsWith s pat then rep +:+ drop_chars (String.length pat) s
  else match s with
       | EmptyString => EmptyString
       | String c s' => String c (replace s' pat rep)
       end.

(** *** Dates *)

Definition digit (c : ascii) : option Z :=
  let n := nat_of_ascii c in
  if (Nat.leb 48 n && Nat.leb n 57)%bool then Some (Z.of_nat (n - 48)) else None.

Fixpoint digits (acc : Z) (l : list ascii) : option Z :=
  match l with
  | [] => Some acc
  | c :: l' => match digit c with
               | Some d => digits (10 * acc + d) l'
               | None => None
               end
  end.

(** Days from 1970-01-01 to the civil date [y-m-d]. *)
Definition days_from_civil (y m d : Z) : Z :=
  let y' := if m <=? 2 then y - 1 else y in
  let era := y' `div` 400 in
  let yoe := y' - era * 400 in
  let mp := (m + 9) `mod` 12 in
  let doy := (153 * mp + 2) `div` 5 + d - 1 in
  let doe := yoe * 365 + yoe `div` 4 - yoe `div` 100 + doy in
  era * 146097 + doe - 719468.

(** [Date.parse] on the format that [toISOString] produces,
    [YYYY-MM-DDTHH:mm:ss.sssZ] (the milliseconds are optional); every other
    string is an invalid date ([None], the [NaN] of [getTime]). *)
Definition Date_parse (s : string) : option Z :=
  match String.list_ascii_of_string s with
  | y1 :: y2 :: y3 :: y4 :: "-"%char :: m1 :: m2 :: "-"%char :: d1 :: d2 :: "T"%char
    :: h1 :: h2 :: ":"%char :: n1 :: n2 :: ":"%char :: s1 :: s2 :: rest =>
      y ← digits 0 [y1; y2; y3; y4];
      m ← digits 0 [m1; m2];
      d ← digits 0 [d1; d2];
      h ← digits 0 [h1; h2];
      n ← digits 0 [n1; n2];
      sec ← digits 0 [s1; s2];
      ms ← match rest with
            | ["Z"%char] => Some 0
            | ["."%char; f1; f2; f3; "Z"%char] => digits 0 [f1; f2; f3]
            | _ => None
            end;
      if ((1 <=? m) && (m <=? 12) && (1 <=? d) && (d <=? 31)
          && (h <=? 23) && (n <=? 59) && (sec <=? 59))%bool
      then Some ((((days_from_civil y m d * 24 + h) * 60 + n) * 60 + sec) * 1000 + ms)
      else None
  | _ => None
  end.

(** [new Date(v).getTime()]; [None] is [NaN]. *)
Definition Date_getTime (v : JsVal) : option Z :=
  match v with
  | JUndefined => None
  | JNull => Some 0
  | JBool b => Some (if b then 1 else 0)
  | JNum z => Some z
  | JStr s => Date_parse s
  end.

(** [arr.findIndex(p)]: the first index whose element satisfies [p], or -1. *)
Fixpoint findIndex {A} (p : A → bool) (l : list A) : Z :=
  match l with
  | [] => -1
  | x :: l' => if p x then 0
               else let i := findIndex p l' in if i <? 0 then -1 else i + 1
  end.

(** [arr.sort(cmp)] for a comparator that orders by a key, largest first,
    [cmp a b = key b - key a]: the sort is stable, so an element stays in
    front of the later elements that the comparator does not put before it.
    A [NaN] difference counts as 0. *)
Definition cmp_desc (ka kb : option Z) : Z :=
  match ka, kb with
  | Some x, Some y => y - x
  | _, _ => 0
  end.

Fixpoint insert_desc {A} (key : A → option Z) (x : A) (l : list A) : list A :=
  match l with
  | [] => [x]
  | y :: l' => if cmp_desc (key x) (key y) <=? 0 then x :: y :: l'
               else y :: insert_desc key x l'
  end.

Definition sort_desc {A} (key : A → option Z) (l : list A) : list A :=
  foldr (insert_desc key) [] l.

(** The readings of the clock and of the random source during one
    synchronous operation: [Date.now()], [new Date().toISOString()] and the
    base-36 text of [Math.random()]. *)
Record Env := {
  now : Z;
  nowISO : string;
  rand : string
}.

(** [`${prefix}-${Date.now()}-${Math.random().toString(36)...}`]. *)
Definition fresh_id (prefix : string) (e : Env) : JsVal :=
  JStr (prefix +:+ "-" +:+ pretty (now e) +:+ "-" +:+ rand e).

(** The property [k] of the object that a literal builds, read off the list
    of its entries. *)
Fixpoint entry (k : string) (l : list (string * JsVal)) : JsVal :=
  match l with
  | [] => JUndefined
  | (k', v) :: l' => if String.eqb k' k then v else entry k l'
  end.

End JS.

Infix "|||" := JS.or (at level 50, left associativity).

(** ** The alarm controller of the backend ([alarmController.js]) *)

Module AlarmController.

(** [normalizeAlarmObject(alarm, contextDeviceId = null)].  The file declares
    the function twice; the later declaration, with the device context, is
    the one in force.  The [Date] of the default timestamp is its ISO text
    once serialised. *)
Definition normalizeAlarmObject (e : JS.Env) (alarm : JsObj) (contextDeviceId : JsVal)
  : JsObj :=
  list_to_map [
    ("_id", JS.get alarm "_id" ||| JS.fresh_id "alarm" e);
    ("AlarmId", JS.get alarm "AlarmId" ||| JS.get alarm "alarmId" ||| JStr "");
    ("AlarmCode", JS.get alarm "AlarmCode" ||| JS.get alarm "alarmCode" ||| JStr "");
    ("AlarmDescription",
      JS.get alarm "AlarmDescription" ||| JS.get alarm "alarmDescription"
      ||| JS.get alarm "description" ||| JStr "");
    ("CreatedTimestamp",
      JS.get alarm "CreatedTimestamp" ||| JS.get alarm "createdTimestamp"
      ||| JS.get alarm "timestamp" ||| JStr (JS.nowISO e));
    ("DeviceId",
      JS.get alarm "DeviceId" ||| JS.get alarm "deviceId" ||| contextDeviceId ||| JStr "");
    ("DeviceName", JS.get alarm "DeviceName" ||| JS.get alarm "deviceName" ||| JStr "");
    ("PlantName", JS.get alarm "PlantName" ||| JS.get alarm "plantName" ||| JStr "");
    ("IsActive",
      JS.defined_or (JS.get alarm "IsActive")
        (JS.defined_or (JS.get alarm "isActive") (JBool true)));
    ("IsRead",
      JS.defined_or (JS.get alarm "IsRead")
        (JS.defined_or (JS.get alarm "isRead") (JBool false)))
  ].

(** *** The list endpoints *)

(** What a handler answers, [res.status(status).json(body)]: a list of
    alarms, an object with a message, or an object with a message and a list
    of alarms. *)
Inductive Reply : Type :=
  | Alarms (status : Z) (alarms : list JsObj)
  | Message (status : Z) (message : string)
  | MessageAlarms (status : Z) (message : string) (alarms : list JsObj).

(** The answers of the database to the queries of a handler: the documents of
    the [alarms] collection that match, as [find(...).sort(...).limit(100)]
    returns them, and the same of the first collection whose name contains
    [alarm], when there is one. *)
Record Found := {
  matching : list JsObj;
  alternative : option (list JsObj)
}.

(** [alarms.map(normalizeAlarmObject)]: [map] hands the callback the element
    and its index, and the declaration in force takes its second argument
    for the device context. *)
Definition normalize_each (envs : nat → JS.Env) (alarms : list JsObj) : list JsObj :=
  imap (λ i alarm, normalizeAlarmObject (envs i) alarm (JNum (Z.of_nat i))) alarms.

(** [alarms.map(alarm => normalizeAlarmObject(alarm, contextDeviceId))]. *)
Definition normalize_with (envs : nat → JS.Env) (contextDeviceId : JsVal)
    (alarms : list JsObj) : list JsObj :=
  imap (λ i alarm, normalizeAlarmObject (envs i) alarm contextDeviceId) alarms.

(** [getAllAlarms(req, res)] when no query raises; [None] is a database
    connection that is not available. *)
Definition getAllAlarms (envs : nat → JS.Env) (telemetryDB : option Found) : Reply :=
  match telemetryDB with
  | None => Message 500 "Database connection not available"
  | Some db =>
      match matching db, alternative db with
      | [], Some (alarm :: alternativeAlarms) =>
          Alarms 200 (normalize_each envs (alarm :: alternativeAlarms))
      | alarms, _ => Alarms 200 (normalize_each envs alarms)
      end
  end.

(** [getAlarmsByDevice(req, res)] for the device id of the route. *)
Definition getAlarmsByDevice (envs : nat → JS.Env) (deviceId : string)
    (telemetryDB : option Found) : Reply :=
  if negb (JS.truthy (JStr deviceId)) then Message 400 "Device ID is required"
  else
    match telemetryDB with
    | None => Message 500 "Database connection not available"
    | Some db =>
        match matching db, alternative db with
        | [], Some (alarm :: alternativeAlarms) =>
            Alarms 200 (normalize_with envs (JStr deviceId) (alarm :: alternativeAlarms))
        | alarms, _ => Alarms 200 (normalize_with envs (JStr deviceId) alarms)
        end
    end.

(** [getAlarmsByPlantAndDevice(req, res)] for query parameters that are
    strings or absent; [telemetryDB] holds the documents that match. *)
Definition getAlarmsByPlantAndDevice (envs : nat → JS.Env)
    (plantName deviceName : option string) (telemetryDB : option (list JsObj)) : Reply :=
  match plantName with
  | None | Some "" =>
      MessageAlarms 400 "Plant name is required as a query parameter" []
  | Some _ =>
      match telemetryDB with
      | None => MessageAlarms 500 "Database connection not available" []
      | Some [] =>
          MessageAlarms 200
            ("No alarms found for the selected plant"
             +:+ match deviceName with
                 | None | Some "" => ""
                 | Some _ => " and device"
                 end) []
      | Some alarms =>
          MessageAlarms 200 "Alarms retrieved successfully" (normalize_with envs JNull alarms)
      end
  end.

(** The alarms of a reply. *)
Definition alarms_of (r : Reply) : list JsObj :=
  match r with
  | Alarms _ alarms => alarms
  | Message _ _ => []
  | MessageAlarms _ _ alarms => alarms
  end.

(** The fields of a normalised alarm. *)
Definition canonical_fields : gset string :=
  list_to_set ["_id"; "AlarmId"; "AlarmCode"; "AlarmDescription"; "CreatedTimestamp";
               "DeviceId"; "DeviceName"; "PlantName"; "IsActive"; "IsRead"].

End AlarmController.

(** ** The backend server ([server.js]) *)

Module Server.

(** [transformAlarmDocument(doc)] of the fallback alarm routes, on a
    document that is present. *)
Definition transformAlarmDocument (e : JS.Env) (doc : JsObj) : JsObj :=
  list_to_map [
    ("_id", JS.get doc "_id" ||| JS.get doc "id"
            ||| JStr ("alarm-" +:+ pretty (JS.now e)));
    ("AlarmId", JS.get doc "AlarmId" ||| JS.get doc "alarmId"
                ||| JS.get doc "AlarmCode" ||| JStr "");
    ("AlarmCode", JS.get doc "AlarmCode" ||| JS.get doc "alarmCode" ||| JStr "");
    ("AlarmDescription",
      JS.get doc "AlarmDescription" ||| JS.get doc "alarmDescription" ||| JStr "");
    ("CreatedTimestamp",
      JS.get doc "CreatedTimestamp" ||| JS.get doc "createdTimestamp"
      ||| JStr (JS.nowISO e));
    ("DeviceId", JS.get doc "DeviceId" ||| JS.get doc "deviceId" ||| JStr "");
    ("DeviceName", JS.get doc "DeviceName" ||| JS.get doc "deviceName" ||| JStr "");
    ("PlantName", JS.get doc "PlantName" ||| JS.get doc "plantName" ||| JStr "");
    ("IsActive",
      JS.defined_or (JS.get doc "IsActive")
        (JS.defined_or (JS.get doc "isActive") (JBool true)));
    ("IsRead",
      JS.defined_or (JS.get doc "IsRead")
        (JS.defined_or (JS.get doc "isRead") (JBool false)))
  ].

(** *** The fan-out of the bus subscriber *)

(** Where an emission goes: every client ([io.emit]), a room
    ([io.to(room).emit]) or one client ([socket.emit]). *)
Inductive Target : Type :=
  | Broadcast
  | Room (name : string)
  | ToSocket (id : string).

#[global] Instance Target_eq_dec : EqDecision Target.
Proof. solve_decision. Defined.

Inductive Payload : Type :=
  | Data (o : JsObj)
  | Wrapped (type : string) (data : JsObj).

Record Emission := {
  target : Target;
  event : string;
  payload : Payload
}.

(** The channel of an emission: its target and its event name. *)
Definition channel (em : Emission) : Target * string := (target em, event em).

(** [v?.toLowerCase()]; [None] is the [TypeError] of a value that is neither
    nullish nor a string. *)
Definition opt_toLowerCase (v : JsVal) : option JsVal :=
  match v with
  | JUndefined | JNull => Some JUndefined
  | JStr s => Some (JStr (JS.toLowerCase s))
  | _ => None
  end.

(** The [isEsp32_04] test of the telemetry handler, with its short cuts. *)
Definition isEsp32_04 (deviceId deviceName : JsVal) (telemetryData : JsObj)
  : option bool :=
  let by_fields :=
    v ← opt_toLowerCase (JS.get telemetryData "device");
    if JS.strict_eq v (JStr "esp32_04") then Some true
    else v' ← opt_toLowerCase (JS.get telemetryData "deviceId");
         Some (JS.strict_eq v' (JStr "esp32_04")) in
  if JS.strict_eq deviceId (JStr "esp32_04") then Some true
  else match deviceName with
       | JUndefined | JNull => by_fields
       | JStr s => if JS.includes (JS.toLowerCase s) "esp32_04" then Some true
                   else by_fields
       | _ => None
       end.

(** [telemetryData.plantName || (deviceName.includes("esp32_04") ? "Plant D"
    : "Plant C")]; [None] is the [TypeError] of [includes]. *)
Definition telemetry_plantName (deviceName : JsVal) (telemetryData : JsObj)
  : option JsVal :=
  if JS.truthy (JS.get telemetryData "plantName")
  then Some (JS.get telemetryData "plantName")
  else match deviceName with
       | JStr s => Some (JStr (if JS.includes s "esp32_04" then "Plant D" else "Plant C"))
       | _ => None
       end.

Definition plantId_of_name (plantName : JsVal) : Z :=
  if JS.strict_eq plantName (JStr "Plant D") then 2 else 1.

(** The emissions of the telemetry handler for a parsed message, in order;
    [sockets] are the ids of the connected clients.  An exception ends the
    handler with what it has emitted. *)
Definition route_telemetry (sockets : list string) (telemetryData : JsObj)
  : list Emission :=
  let deviceId := JS.get telemetryData "deviceId" ||| JS.get telemetryData "device" in
  let deviceName := JS.get telemetryData "deviceName" ||| JS.get telemetryData "DeviceName"
                    ||| deviceId in
  let d := Data telemetryData in
  match isEsp32_04 deviceId deviceName telemetryData with
  | None => []
  | Some esp =>
      (if esp then
         [ {| target := Broadcast; event := "telemetry"; payload := d |};
           {| target := Broadcast; event := "telemetry_esp32_04"; payload := d |};
           {| target := Room "device:esp32_04"; event := "telemetry-esp32_04";
              payload := d |};
           {| target := Broadcast; event := "broadcast";
              payload := Wrapped "esp32_04_data" telemetryData |} ]
         ++ ((λ id, {| target := ToSocket id; event := "telemetry-esp32_04";
                       payload := d |}) <$> sockets)
       else
         [ {| target := Room ("device:" +:+ JS.to_string deviceId); event := "telemetry";
              payload := d |} ])
      ++ match telemetry_plantName deviceName telemetryData with
         | None => []
         | Some plantName =>
             [ {| target := Room ("plant:" +:+ pretty (plantId_of_name plantName));
                  event := "telemetry"; payload := d |} ]
         end
  end.

(** The plant id of the alarm handler. *)
Definition alarm_plantId (alarmData : JsObj) : JsVal :=
  JS.get alarmData "plantId" ||| JNum (plantId_of_name (JS.get alarmData "plantName")).

(** The emissions that the alarm handler makes at once for a parsed message. *)
Definition route_alarm (alarmData : JsObj) : list Emission :=
  let deviceId := JS.get alarmData "deviceId" ||| JS.get alarmData "DeviceId" in
  let d := Data alarmData in
  [ {| target := Broadcast; event := "alarm"; payload := d |} ]
  ++ (if JS.truthy deviceId
      then [ {| target := Room ("device:" +:+ JS.to_string deviceId); event := "alarm";
                payload := d |} ]
      else [])
  ++ [ {| target := Room ("plant:" +:+ JS.to_string (alarm_plantId alarmData));
          event := "alarm"; payload := d |} ].

(** The notification that the alarm handler builds after its delay; [None]
    is the [TypeError] of [deviceId.includes]. *)
Definition notificationData (e : JS.Env) (alarmData : JsObj) : option JsObj :=
  let deviceId := JS.get alarmData "deviceId" ||| JS.get alarmData "DeviceId" in
  plantName ←
    (if JS.truthy (JS.get alarmData "plantName" ||| JS.get alarmData "PlantName")
     then Some (JS.get alarmData "plantName" ||| JS.get alarmData "PlantName")
     else match deviceId with
          | JStr s => Some (JStr (if JS.includes s "esp32_04" then "Plant D" else "Plant C"))
          | _ => None
          end);
  Some (list_to_map [
    ("id", JS.get alarmData "_id" ||| JS.get alarmData "id" ||| JS.fresh_id "alarm" e);
    ("deviceId", deviceId);
    ("deviceName", JS.get alarmData "deviceName" ||| JS.get alarmData "DeviceName"
                   ||| JStr "Unknown Device");
    ("plantName", plantName);
    ("alarmCode", JS.get alarmData "alarmCode" ||| JS.get alarmData "AlarmCode"
                  ||| JStr "ALARM");
    ("alarmDescription", JS.get alarmData "alarmDescription"
                         ||| JS.get alarmData "AlarmDescription" ||| JStr "New alarm");
    ("alarmValue", JS.get alarmData "alarmValue" ||| JS.get alarmData "value" ||| JStr "");
    ("message", JS.get alarmData "message" ||| JS.get alarmData "Message" ||| JStr "");
    ("description", JS.get alarmData "description" ||| JS.get alarmData "desc"
                    ||| JS.get alarmData "alarmDescription"
                    ||| JS.get alarmData "AlarmDescription" ||| JStr "");
    ("status", JS.get alarmData "status" ||| JStr "New");
    ("severity", JS.get alarmData "severity" ||| JStr "Warning");
    ("createdTimestamp", JS.get alarmData "createdTimestamp"
                         ||| JS.get alarmData "CreatedTimestamp" ||| JStr (JS.nowISO e));
    ("isRead", JBool false)
  ]).

(** The emission of the delayed part of the alarm handler. *)
Definition route_alarm_delayed (e : JS.Env) (alarmData : JsObj) : list Emission :=
  match notificationData e alarmData with
  | Some n => [ {| target := Broadcast; event := "alarm_notification"; payload := Data n |} ]
  | None => []
  end.

(** One pass of the router over a message of the bus; [None] is a message
    that [JSON.parse] rejects, which is logged and dropped. *)
Inductive Kind : Type := Telemetry | Alarm.

Definition route (kind : Kind) (e : JS.Env) (sockets : list string)
    (message : option JsObj) : list Emission :=
  match message with
  | None => []
  | Some parsed =>
      match kind with
      | Telemetry => route_telemetry sockets parsed
      | Alarm => route_alarm parsed ++ route_alarm_delayed e parsed
      end
  end.

(** *** The alarm list of the fallback routes *)

Definition createdTime (a : JsObj) : option Z :=
  JS.Date_getTime (JS.get a "CreatedTimestamp").


(** *** Rooms *)

(** The handlers that [io.on("connection")] installs on the socket of a
    client, on the rooms that the client has joined through them: [subscribe]
    and [subscribePlant] join a room, every other event leaves them. *)
Definition client_event (event : string) (arg : JsVal) (rooms : gset string) : gset string :=
  if bool_decide (event = "subscribe") then {[ "device:" +:+ JS.to_string arg ]} ∪ rooms
  else if bool_decide (event = "subscribePlant")
       then {[ "plant:" +:+ JS.to_string arg ]} ∪ rooms
       else rooms.

Definition client_events (events : list (string * JsVal)) (rooms : gset string)
  : gset string :=
  foldl (λ r ev, client_event ev.1 ev.2 r) rooms events.

(** Whether an emission reaches the client with the socket id [id] that has
    joined [rooms]. *)
Definition reaches (id : string) (rooms : gset string) (em : Emission) : bool :=
  match target em with
  | Broadcast => true
  | Room name => bool_decide (name ∈ rooms)
  | ToSocket id' => bool_decide (id' = id)
  end.

(** What a client receives of a list of emissions, in order. *)
Definition received (id : string) (rooms : gset string) (out : list Emission)
  : list Emission :=
  filter (λ em, reaches id rooms em = true) out.

End Server.

(** ** The socket service of the client ([socketService.js]) *)

Module SocketService.

(** The persistent cache, [this.cache]. *)
Record Cache := {
  alarmsInitialDataLoaded : bool;
  alarmData : list JsObj;
  lastFetchTime : option Z;
  notificationData : list JsObj;
  currentPlant : JsVal;
  currentDevice : JsVal
}.

(** The cache of a freshly constructed service. *)
Definition empty_cache : Cache :=
  {| alarmsInitialDataLoaded := false; alarmData := []; lastFetchTime := None;
     notificationData := []; currentPlant := JNull; currentDevice := JNull |}.

Definition set_alarmData (l : list JsObj) (c : Cache) : Cache :=
  {| alarmsInitialDataLoaded := alarmsInitialDataLoaded c; alarmData := l;
     lastFetchTime := lastFetchTime c; notificationData := notificationData c;
     currentPlant := currentPlant c; currentDevice := currentDevice c |}.

Definition set_notificationData (l : list JsObj) (c : Cache) : Cache :=
  {| alarmsInitialDataLoaded := alarmsInitialDataLoaded c; alarmData := alarmData c;
     lastFetchTime := lastFetchTime c; notificationData := l;
     currentPlant := currentPlant c; currentDevice := currentDevice c |}.

(** [cacheAlarmData(alarmData)].  The class declares the method twice; the
    later declaration, which ignores an empty array, is the one in force. *)
Definition cacheAlarmData (e : JS.Env) (data : list JsObj) (c : Cache) : Cache :=
  match data with
  | [] => c
  | _ :: _ =>
      {| alarmsInitialDataLoaded := true; alarmData := data;
         lastFetchTime := Some (JS.now e); notificationData := notificationData c;
         currentPlant := currentPlant c; currentDevice := currentDevice c |}
  end.

(** [clearAlarmCache()], the later of its two declarations. *)
Definition clearAlarmCache (c : Cache) : Cache :=
  {| alarmsInitialDataLoaded := false; alarmData := []; lastFetchTime := None;
     notificationData := notificationData c;
     currentPlant := currentPlant c; currentDevice := currentDevice c |}.

(** The record that [addAlarmToCache] stores for [newAlarm]. *)
Definition formattedAlarm (e : JS.Env) (alarmId : JsVal) (newAlarm : JsObj) : JsObj :=
  list_to_map [
    ("_id", alarmId ||| JS.fresh_id "alarm" e);
    ("AlarmId", JS.get newAlarm "id" ||| JS.get newAlarm "alarmId"
                ||| JS.get newAlarm "AlarmId" ||| JStr "");
    ("AlarmCode", JS.get newAlarm "alarmCode" ||| JS.get newAlarm "AlarmCode" ||| JStr "");
    ("AlarmDescription",
      JS.get newAlarm "description" ||| JS.get newAlarm "alarmDescription"
      ||| JS.get newAlarm "AlarmDescription" ||| JStr "");
    ("CreatedTimestamp",
      JS.get newAlarm "timestamp" ||| JS.get newAlarm "createdTimestamp"
      ||| JS.get newAlarm "CreatedTimestamp" ||| JStr (JS.nowISO e));
    ("DeviceId", JS.get newAlarm "deviceId" ||| JS.get newAlarm "DeviceId" ||| JStr "");
    ("DeviceName", JS.get newAlarm "deviceName" ||| JS.get newAlarm "DeviceName" ||| JStr "");
    ("PlantName", JS.get newAlarm "plantName" ||| JS.get newAlarm "PlantName" ||| JStr "");
    ("IsActive", JBool true);
    ("IsRead", JBool false)
  ].

(** The duplicate test of [addAlarmToCache] against one cached record. *)
Definition matches (alarmId : JsVal) (newAlarm a : JsObj) : bool :=
  JS.strict_eq (JS.get a "_id") alarmId
  || JS.strict_eq (JS.get a "AlarmId") alarmId
  || (JS.truthy (JS.get newAlarm "timestamp")
      && JS.strict_eq (JS.get a "CreatedTimestamp") (JS.get newAlarm "timestamp")).

(** [addAlarmToCache(newAlarm)] on the cached alarm list, for an alarm
    object that is present. *)
Definition addAlarmToCache (e : JS.Env) (newAlarm : JsObj) (alarmData : list JsObj)
  : list JsObj :=
  let alarmId :=
    JS.get newAlarm "id" ||| JS.get newAlarm "_id" ||| JS.get newAlarm "AlarmId"
    ||| JStr "" in
  let existingAlarmIndex := JS.findIndex (matches alarmId newAlarm) alarmData in
  if 0 <=? existingAlarmIndex then alarmData
  else formattedAlarm e alarmId newAlarm :: alarmData.

(** [markAlarmAsRead(alarmId)] on the cached alarm list. *)
Definition markAlarmAsRead (alarmId : JsVal) (alarmData : list JsObj) : list JsObj :=
  if negb (JS.truthy alarmId) then alarmData
  else map (fun alarm =>
              if JS.strict_eq (JS.get alarm "_id") alarmId
              then <["IsRead" := JBool true]> alarm
              else alarm) alarmData.

(** The record that [addNotificationToCache] stores. *)
Definition formattedNotification (e : JS.Env) (notificationId : JsVal)
    (n : JsObj) : JsObj :=
  list_to_map [
    ("_id", notificationId ||| JS.fresh_id "notification" e);
    ("NotificationId", JS.get n "id" ||| JS.get n "notificationId"
                       ||| JS.get n "NotificationId" ||| JStr "");
    ("Type", JS.get n "type" ||| JS.get n "Type" ||| JStr "general");
    ("Message", JS.get n "message" ||| JS.get n "Message" ||| JStr "");
    ("Title", JS.get n "title" ||| JS.get n "Title" ||| JStr "");
    ("CreatedTimestamp",
      JS.get n "timestamp" ||| JS.get n "createdTimestamp"
      ||| JS.get n "CreatedTimestamp" ||| JStr (JS.nowISO e));
    ("DeviceId", JS.get n "deviceId" ||| JS.get n "DeviceId" ||| JStr "");
    ("DeviceName", JS.get n "deviceName" ||| JS.get n "DeviceName" ||| JStr "");
    ("PlantId", JS.get n "plantId" ||| JS.get n "PlantId" ||| JStr "");
    ("PlantName", JS.get n "plantName" ||| JS.get n "PlantName" ||| JStr "");
    ("IsRead", JBool false)
  ].

(** [addNotificationToCache(newNotification)] on the cached list. *)
Definition addNotificationToCache (e : JS.Env) (n : JsObj) (data : list JsObj)
  : list JsObj :=
  let notificationId :=
    JS.get n "id" ||| JS.get n "_id" ||| JS.get n "NotificationId" ||| JStr "" in
  let existingNotificationIndex :=
    JS.findIndex (λ c,
      JS.strict_eq (JS.get c "_id") notificationId
      || JS.strict_eq (JS.get c "NotificationId") notificationId
      || (JS.truthy (JS.get n "timestamp")
          && JS.strict_eq (JS.get c "CreatedTimestamp") (JS.get n "timestamp"))) data in
  if 0 <=? existingNotificationIndex then data
  else formattedNotification e notificationId n :: data.

(** *** Connection, listeners and subscriptions *)

(** A callback is a function object; the code compares callbacks by
    identity, which a number stands for. *)
Definition Cb := nat.

(** The closures that the service installs on the socket. *)
Inductive Handler : Type :=
  | HTelemetry (callback : Cb) (device : JsVal)
  | HAlarm
  | HAlarmNotification
  | HNotification.

(** The socket of [socket.io-client]: its connection flag and the handlers
    of the inbound events, in the order of their registration. *)
Record Socket := {
  sock_connected : bool;
  handlers : list (string * Handler)
}.

(** A value of the [activeListeners] map: a callback or [true]. *)
Inductive Active : Type :=
  | ActiveCb (callback : Cb)
  | ActiveTrue.

Record Service := {
  socket : option Socket;
  connected : bool;
  listeners : gmap string (list Cb);
  activeListeners : gmap string Active;
  pendingSubscriptions : list string;
  connectionCallbacks : list Cb;
  cache : Cache
}.

(** What an operation does to the outside: a message sent to the server, a
    callback invoked, an event put on the event bus. *)
Inductive Effect : Type :=
  | Emit (event : string) (arg : JsVal)
  | EmitObj (event : string) (arg : JsObj)
  | Call (callback : Cb) (data : JsObj)
  | BusEmit (event : string) (data : JsObj)
  | CallConnect (callback : Cb).

(** Operations thread the service and log their effects. *)
Definition M (A : Type) : Type := Service → A * Service * list Effect.

Definition ret {A} (x : A) : M A := λ st, (x, st, []).

Definition bind {A B} (m : M A) (k : A → M B) : M B :=
  λ st, let '(x, st1, out1) := m st in
        let '(y, st2, out2) := k x st1 in
        (y, st2, out1 ++ out2).

Definition read : M Service := λ st, (st, st, []).
Definition modify (f : Service → Service) : M unit := λ st, (tt, f st, []).
Definition tell (out : list Effect) : M unit := λ st, (tt, st, out).

Declare Scope svc_scope.
Delimit Scope svc_scope with svc.
Notation "'let*' x ':=' m 'in' k" := (bind m (λ x, k))
  (at level 10, x name, m at level 100, k at level 200) : svc_scope.
Notation "m '>>' k" := (bind m (λ _, k))
  (at level 100, k at level 200, right associativity) : svc_scope.
Open Scope svc_scope.

Definition when (b : bool) (m : M unit) : M unit := if b then m else ret tt.

Fixpoint forEach {A} (f : A → M unit) (l : list A) : M unit :=
  match l with
  | [] => ret tt
  | x :: l' => f x >> forEach f l'
  end.

Definition state_after {A} (m : M A) (st : Service) : Service := (m st).1.2.
Definition effects_of {A} (m : M A) (st : Service) : list Effect := (m st).2.
Definition result_of {A} (m : M A) (st : Service) : A := (m st).1.1.

Definition set_socket (s : option Socket) (st : Service) : Service :=
  {| socket := s; connected := connected st; listeners := listeners st;
     activeListeners := activeListeners st;
     pendingSubscriptions := pendingSubscriptions st;
     connectionCallbacks := connectionCallbacks st; cache := cache st |}.

Definition set_connected (b : bool) (st : Service) : Service :=
  {| socket := socket st; connected := b; listeners := listeners st;
     activeListeners := activeListeners st;
     pendingSubscriptions := pendingSubscriptions st;
     connectionCallbacks := connectionCallbacks st; cache := cache st |}.

Definition set_listeners (l : gmap string (list Cb)) (st : Service) : Service :=
  {| socket := socket st; connected := connected st; listeners := l;
     activeListeners := activeListeners st;
     pendingSubscriptions := pendingSubscriptions st;
     connectionCallbacks := connectionCallbacks st; cache := cache st |}.

Definition set_activeListeners (a : gmap string Active) (st : Service) : Service :=
  {| socket := socket st; connected := connected st; listeners := listeners st;
     activeListeners := a;
     pendingSubscriptions := pendingSubscriptions st;
     connectionCallbacks := connectionCallbacks st; cache := cache st |}.

Definition set_pending (p : list string) (st : Service) : Service :=
  {| socket := socket st; connected := connected st; listeners := listeners st;
     activeListeners := activeListeners st;
     pendingSubscriptions := p;
     connectionCallbacks := connectionCallbacks st; cache := cache st |}.

Definition set_cache (c : Cache) (st : Service) : Service :=
  {| socket := socket st; connected := connected st; listeners := listeners st;
     activeListeners := activeListeners st;
     pendingSubscriptions := pendingSubscriptions st;
     connectionCallbacks := connectionCallbacks st; cache := c |}.

(** The service as its constructor leaves it. *)
Definition new_service : Service :=
  {| socket := None; connected := false; listeners := ∅; activeListeners := ∅;
     pendingSubscriptions := []; connectionCallbacks := []; cache := empty_cache |}.

(** [socket.on(event, h)], [socket.off(event)] and [socket.hasListeners(event)]
    on the socket of the service. *)
Definition sock_on (event : string) (h : Handler) (s : Socket) : Socket :=
  {| sock_connected := sock_connected s; handlers := handlers s ++ [(event, h)] |}.

Definition sock_off (event : string) (s : Socket) : Socket :=
  {| sock_connected := sock_connected s;
     handlers := filter (λ eh, eh.1 ≠ event) (handlers s) |}.

Definition sock_hasListeners (event : string) (s : Socket) : bool :=
  existsb (λ eh : string * Handler, bool_decide (eh.1 = event)) (handlers s).

Definition handlers_for (event : string) (s : Socket) : list Handler :=
  (filter (λ eh, eh.1 = event) (handlers s)).*2.

Definition on (event : string) (h : Handler) : M unit :=
  modify (λ st, set_socket (sock_on event h <$> socket st) st).

Definition off (event : string) : M unit :=
  modify (λ st, set_socket (sock_off event <$> socket st) st).

(** Insertion and removal in a [Set] that is iterated in insertion order. *)
Definition set_add (x : string) (l : list string) : list string :=
  if bool_decide (x ∈ l) then l else l ++ [x].

Definition set_delete (x : string) (l : list string) : list string :=
  filter (λ y, y ≠ x) l.

(** [connect()]: an existing socket is disconnected and dropped (if it was
    connected, its [disconnect] handler clears the flag of the service), and
    a new one is created, which connects later. *)
Definition connect : M unit :=
  modify (λ st,
    set_socket (Some {| sock_connected := false; handlers := [] |})
      (match socket st with
       | Some s => if sock_connected s then set_connected false st else st
       | None => st
       end)).

(** [disconnect()]. *)
Definition disconnect : M unit :=
  let* st := read in
  match socket st with
  | Some _ =>
      modify (set_pending []) >> modify (set_socket None)
      >> modify (set_connected false)
  | None => ret tt
  end.

(** [isConnected()]. *)
Definition isConnected (st : Service) : bool :=
  connected st && match socket st with
                  | Some s => sock_connected s
                  | None => false
                  end.

Definition plantKey (plantId : JsVal) : string := "plant-" +:+ JS.to_string plantId.

(** [subscribeToDevice(deviceId)] for a device id that is a string. *)
Definition subscribeToDevice (deviceId : string) : M unit :=
  let* st := read in
  if negb (JS.truthy (JStr deviceId)) then ret tt
  else if bool_decide (deviceId ∈ pendingSubscriptions st) then ret tt
  else
    modify (set_pending
              (set_add deviceId
                 (filter (λ sub, ¬ (sub ≠ plantKey (currentPlant (cache st))
                                    ∧ sub ≠ deviceId))
                    (pendingSubscriptions st))))
    >> if negb (bool_decide (is_Some (socket st))) || negb (connected st)
       then connect
       else tell [Emit "subscribe" (JStr deviceId)].

(** [subscribeToPlant(plantId)]. *)
Definition subscribeToPlant (plantId : JsVal) : M unit :=
  let* st := read in
  if negb (JS.truthy plantId) && negb (JS.strict_eq plantId (JNum 0)) then ret tt
  else if bool_decide (plantKey plantId ∈ pendingSubscriptions st) then ret tt
  else
    modify (set_pending
              (set_add (plantKey plantId)
                 (filter (λ sub, ¬ (JS.startsWith sub "plant-" = true
                                    ∧ sub ≠ plantKey plantId))
                    (pendingSubscriptions st))))
    >> if negb (bool_decide (is_Some (socket st))) || negb (connected st)
       then connect
       else tell [Emit "subscribe-plant" plantId].

(** [unsubscribeFromDevice(deviceId)] and [unsubscribeFromPlant(plantId)]. *)
Definition unsubscribeFromDevice (deviceId : string) : M unit :=
  let* st := read in
  if negb (JS.truthy (JStr deviceId)) || negb (bool_decide (is_Some (socket st)))
     || negb (connected st)
  then ret tt
  else tell [Emit "unsubscribe" (JStr deviceId)]
       >> modify (set_pending (set_delete deviceId (pendingSubscriptions st))).

Definition unsubscribeFromPlant (plantId : JsVal) : M unit :=
  let* st := read in
  if (negb (JS.truthy plantId) && negb (JS.strict_eq plantId (JNum 0)))
     || negb (bool_decide (is_Some (socket st))) || negb (connected st)
  then ret tt
  else tell [Emit "unsubscribe-plant" plantId]
       >> modify (set_pending (set_delete (plantKey plantId) (pendingSubscriptions st))).

(** What the connect handler sends for one entry of the pending set. *)
Definition resubscribe (sub : string) : Effect :=
  if JS.startsWith sub "plant-"
  then Emit "subscribe-plant" (JStr (JS.replace sub "plant-" ""))
  else Emit "subscribe" (JStr sub).

(** *** Listener registration *)

(** What a registration hands back: the clean-up closures of the code, or
    nothing ([None], the [undefined] of a method that returns no value). *)
Inductive Disposer : Type :=
  | DNoop
  | DTelemetry (callback : Cb) (listenerKey : string)
  | DRemove (event : string) (callback : Cb).

Fixpoint remove_first (cb : Cb) (l : list Cb) : list Cb :=
  match l with
  | [] => []
  | x :: l' => if bool_decide (x = cb) then l' else x :: remove_first cb l'
  end.

(** [removeListener(event, callback)]: [indexOf] and [splice(index, 1)]. *)
Definition removeListener (event : string) (callback : Cb) : M unit :=
  let* st := read in
  match listeners st !! event with
  | None => ret tt
  | Some callbacks =>
      modify (set_listeners (<[event := remove_first callback callbacks]> (listeners st)))
  end.

(** [listeners.get(event).push(callback)] when the entry exists. *)
Definition push_listener (event : string) (callback : Cb) : M unit :=
  modify (λ st, set_listeners
                  (<[event := default [] (listeners st !! event) ++ [callback]]>
                     (listeners st)) st).

(** [removeAllTelemetryListeners()]. *)
Definition removeAllTelemetryListeners : M unit :=
  let* st := read in
  match socket st with
  | None => ret tt
  | Some _ =>
      when (JS.truthy (currentDevice (cache st)))
        (off ("telemetry_" +:+ JS.to_string (currentDevice (cache st)))
         >> off ("telemetry-" +:+ JS.to_string (currentDevice (cache st))))
      >> off "telemetry"
      >> modify (λ st, set_activeListeners (delete "telemetry" (activeListeners st)) st)
  end.

(** [removeNotificationListeners()]. *)
Definition removeNotificationListeners : M unit :=
  let* st := read in
  match socket st with
  | None => ret tt
  | Some _ =>
      off "notification"
      >> modify (λ st, set_activeListeners (delete "notification" (activeListeners st)) st)
  end.

(** [onTelemetry(callback, device)]. *)
Definition onTelemetry (callback : Cb) (device : JsVal) : M (option Disposer) :=
  let* st := read in
  match socket st with
  | None => connect >> ret (Some DNoop)
  | Some _ =>
      when (negb (isConnected st)) connect
      >> modify (λ st, if bool_decide (is_Some (listeners st !! "telemetry")) then st
                       else set_listeners (<["telemetry" := []]> (listeners st)) st)
      >> removeAllTelemetryListeners
      >> let listenerKey :=
           if JS.truthy device then "telemetry-" +:+ JS.to_string device
           else "telemetry-global" in
         modify (λ st, set_activeListeners
                         (<[listenerKey := ActiveCb callback]> (activeListeners st)) st)
         >> on "telemetry" (HTelemetry callback device)
         >> push_listener "telemetry" callback
         >> ret (Some (DTelemetry callback listenerKey))
  end.

(** The common body of [onAlarm] and [onAlarmNotification]. *)
Definition onAlarmLike (e : JS.Env) (event : string) (h : Handler) (callback : Cb)
  : M (option Disposer) :=
  let* st := read in
  match socket st with
  | None =>
      connect
      >> push_listener ("_pending_" +:+ event) callback
      >> ret None
  | Some s =>
      when (sock_hasListeners event s) (off event)
      >> modify (λ st, set_listeners (<[event := []]> (listeners st)) st)
      >> push_listener event callback
      >> on event h
      >> when (isConnected st)
           (tell [EmitObj "test-connection"
                    (list_to_map [("channel", JStr event); ("timestamp", JNum (JS.now e))])])
      >> ret (Some (DRemove event callback))
  end.

(** [onAlarm(callback)]. *)
Definition onAlarm (e : JS.Env) (callback : Cb) : M (option Disposer) :=
  onAlarmLike e "alarm" HAlarm callback.

(** [onAlarmNotification(callback)]. *)
Definition onAlarmNotification (e : JS.Env) (callback : Cb) : M (option Disposer) :=
  onAlarmLike e "alarm_notification" HAlarmNotification callback.

(** [subscribeToNotifications()], called without a type. *)
Definition subscribeToNotifications : M unit :=
  let* st := read in
  if negb (bool_decide (is_Some (socket st))) || negb (connected st)
  then modify (set_pending (set_add "notifications" (pendingSubscriptions st)))
  else tell [EmitObj "subscribe-notifications" (list_to_map [("type", JNull)])]
       >> modify (set_pending (set_add "notifications" (pendingSubscriptions st))).

(** [onNotification(callback)] for a callback that is a function; the method
    returns no value. *)
Definition onNotification (callback : Cb) : M (option Disposer) :=
  modify (λ st, if bool_decide (is_Some (listeners st !! "notification")) then st
                else set_listeners (<["notification" := []]> (listeners st)) st)
  >> push_listener "notification" callback
  >> (let* st := read in
      when (negb (bool_decide (is_Some (activeListeners st !! "notification")))
            && bool_decide (is_Some (socket st)))
        (on "notification" HNotification
         >> modify (λ st, set_activeListeners
                            (<["notification" := ActiveTrue]> (activeListeners st)) st)))
  >> subscribeToNotifications
  >> ret None.

(** Running what a registration handed back.  The telemetry clean-up ends
    with [this.socket.off('telemetry')]. *)
Definition dispose (d : option Disposer) : M unit :=
  match d with
  | None | Some DNoop => ret tt
  | Some (DRemove event callback) => removeListener event callback
  | Some (DTelemetry callback listenerKey) =>
      removeListener "telemetry" callback
      >> modify (λ st, set_activeListeners (delete listenerKey (activeListeners st)) st)
      >> off "telemetry"
  end.

(** *** Inbound events *)

(** The device filter of the telemetry handler; [None] is the [TypeError] of
    [includes] on a value that is no string. *)
Definition telemetry_passes (device : JsVal) (data : JsObj) : option bool :=
  let deviceId := JS.get data "device" ||| JS.get data "deviceId" ||| JStr "unknown" in
  if negb (JS.truthy device) then Some true
  else if JS.strict_eq deviceId device then Some true
  else match deviceId with
       | JStr did =>
           if JS.includes did (JS.to_string device) then Some true
           else match device with
                | JStr dev => Some (JS.includes dev did)
                | _ => None
                end
       | _ => None
       end.

Definition stamp (e : JS.Env) (data : JsObj) : JsObj :=
  <["_uniqueId" := JStr (pretty (JS.now e) +:+ "-" +:+ JS.rand e)]> data.

(** One handler on one inbound event.  The payload object is shared: what a
    handler writes into it is what the callbacks and the later handlers see.
    The result is [false] when the handler raises. *)
Definition run_handler (e : JS.Env) (h : Handler) (data : JsObj) : M (JsObj * bool) :=
  match h with
  | HTelemetry callback device =>
      match telemetry_passes device data with
      | None => ret (data, false)
      | Some false => ret (data, true)
      | Some true =>
          let data' := stamp e data in
          tell [Call callback data'] >> ret (data', true)
      end
  | HAlarm | HAlarmNotification =>
      let event := match h with HAlarm => "alarm" | _ => "alarm_notification" end in
      let data' := stamp e (<["_receivedAt" := JNum (JS.now e)]> data) in
      modify (λ st, set_cache (set_alarmData
                                 (addAlarmToCache e data' (alarmData (cache st)))
                                 (cache st)) st)
      >> tell [BusEmit "new-alarm" data']
      >> (let* st := read in
          tell ((λ cb, Call cb data') <$> default [] (listeners st !! event)))
      >> ret (data', true)
  | HNotification =>
      modify (λ st, set_cache (set_notificationData
                                 (addNotificationToCache e data
                                    (notificationData (cache st)))
                                 (cache st)) st)
      >> (let* st := read in
          tell ((λ cb, Call cb data) <$> default [] (listeners st !! "notification")))
      >> ret (data, true)
  end.

Fixpoint run_handlers (e : JS.Env) (hs : list Handler) (data : JsObj) : M unit :=
  match hs with
  | [] => ret tt
  | h :: hs' =>
      let* r := run_handler e h data in
      if r.2 then run_handlers e hs' r.1 else ret tt
  end.

(** The socket receives [event] with [data] from the server. *)
Definition receive (e : JS.Env) (event : string) (data : JsObj) : M unit :=
  let* st := read in
  match socket st with
  | None => ret tt
  | Some s => run_handlers e (handlers_for event s) data
  end.

(** The handler of the socket's [connect] event, in its four steps: the flag,
    the pending subscriptions, the pending listeners and the connection
    callbacks. *)
Definition mark_connected : M unit :=
  modify (λ st, set_connected true
                  (set_socket ((λ s, {| sock_connected := true;
                                        handlers := handlers s |}) <$> socket st) st)).

Definition replay_pending : M unit :=
  let* st := read in tell (resubscribe <$> pendingSubscriptions st).

Definition process_pending_listeners (e : JS.Env) : M unit :=
  forEach (λ ev : string,
    let* st := read in
    match listeners st !! ("_pending_" +:+ ev) with
    | Some (cb :: cbs) =>
        forEach (λ cb,
          (if bool_decide (ev = "alarm") then onAlarm e cb
           else if bool_decide (ev = "alarm_notification") then onAlarmNotification e cb
           else onTelemetry cb JUndefined) >> ret tt) (cb :: cbs)
        >> modify (λ st, set_listeners (delete ("_pending_" +:+ ev) (listeners st)) st)
    | _ => ret tt
    end) ["alarm"; "alarm_notification"; "telemetry"].

Definition notify_connection_callbacks : M unit :=
  let* st := read in tell (CallConnect <$> connectionCallbacks st).

Definition on_connect (e : JS.Env) : M unit :=
  mark_connected >> replay_pending >> process_pending_listeners e
  >> notify_connection_callbacks.

(** *** The registration surface, by event kind *)

Inductive EventKind : Type :=
  | KTelemetry (device : JsVal)
  | KAlarm
  | KAlarmNotification
  | KNotification.

Definition event_name (k : EventKind) : string :=
  match k with
  | KTelemetry _ => "telemetry"
  | KAlarm => "alarm"
  | KAlarmNotification => "alarm_notification"
  | KNotification => "notification"
  end.

(** [onTelemetry(cb, device)], [onAlarm(cb)], [onAlarmNotification(cb)] or
    [onNotification(cb)]. *)
Definition register (e : JS.Env) (k : EventKind) (callback : Cb) : M (option Disposer) :=
  match k with
  | KTelemetry device => onTelemetry callback device
  | KAlarm => onAlarm e callback
  | KAlarmNotification => onAlarmNotification e callback
  | KNotification => onNotification callback
  end.

(** An operation done [n] times in a row. *)
Fixpoint times {A} (n : nat) (m : M A) : M unit :=
  match n with
  | O => ret tt
  | S n' => m >> times n' m
  end.

(** The callbacks that a log of effects invoked, in order. *)
Definition calls (out : list Effect) : list Cb :=
  omap (λ x, match x with Call cb _ => Some cb | _ => None end) out.

(** Whether an inbound event of a kind reaches the callback of a registration:
    the device filter of telemetry, nothing for the other kinds. *)
Definition passes (k : EventKind) (data : JsObj) : Prop :=
  match k with
  | KTelemetry device => telemetry_passes device data = Some true
  | _ => True
  end.

(** No notification listener has been set up yet. *)
Definition no_notification_listener (st : Service) : Prop :=
  listeners st !! "notification" = None
  ∧ activeListeners st !! "notification" = None
  ∧ ∀ s, socket st = Some s → handlers_for "notification" s = [].


Definition alarm_like (event : string) (h : Handler) : Prop :=
  (event = "alarm" ∧ h = HAlarm)
  ∨ (event = "alarm_notification" ∧ h = HAlarmNotification).

(** What one registration of [cb] establishes, whatever came before: one
    handler of the kind on the socket and, for the alarm kinds, a callback
    list that holds [cb] alone. *)
Definition registered (k : EventKind) (cb : Cb) (st : Service) : Prop :=
  match k with
  | KTelemetry device =>
      ∃ s, socket st = Some s ∧ handlers_for "telemetry" s = [HTelemetry cb device]
  | KAlarm =>
      (∃ s, socket st = Some s ∧ handlers_for "alarm" s = [HAlarm])
      ∧ listeners st !! "alarm" = Some [cb]
  | KAlarmNotification =>
      (∃ s, socket st = Some s
            ∧ handlers_for "alarm_notification" s = [HAlarmNotification])
      ∧ listeners st !! "alarm_notification" = Some [cb]
  | KNotification => True
  end.

(** The notification listener is set up and [l] is its callback list. *)
Definition notification_listener (l : list Cb) (st : Service) : Prop :=
  (∃ s, socket st = Some s ∧ handlers_for "notification" s = [HNotification])
  ∧ listeners st !! "notification" = Some l
  ∧ is_Some (activeListeners st !! "notification").

(** A room subscription: [subscribeToDevice(id)] or [subscribeToPlant(id)]. *)
Inductive Request : Type :=
  | ReqDevice (deviceId : string)
  | ReqPlant (plantId : JsVal).

Definition subscribe (r : Request) : M unit :=
  match r with
  | ReqDevice deviceId => subscribeToDevice deviceId
  | ReqPlant plantId => subscribeToPlant plantId
  end.

(** The entry of the pending set that stands for a request. *)
Definition request_key (r : Request) : string :=
  match r with
  | ReqDevice deviceId => deviceId
  | ReqPlant plantId => plantKey plantId
  end.

(** The requests that the methods accept: a device id that is not empty (and
    that does not read as a plant entry), a plant id that is truthy or 0. *)
Definition valid_request (r : Request) : Prop :=
  match r with
  | ReqDevice deviceId => deviceId ≠ "" ∧ JS.startsWith deviceId "plant-" = false
  | ReqPlant plantId => JS.truthy plantId = true ∨ plantId = JNum 0
  end.


(** The push channel is down: there is no socket or the flag is off. *)
Definition disconnected (st : Service) : Prop :=
  socket st = None ∨ connected st = false.

(** *** Further methods of the service *)

(** The answer of [getCachedAlarmData()], the later of its two
    declarations. *)
Record CachedAlarmData := {
  cached_data : list JsObj;
  cached_isLoaded : bool;
  cached_lastFetchTime : option Z
}.

Definition getCachedAlarmData (c : Cache) : CachedAlarmData :=
  {| cached_data := alarmData c; cached_isLoaded := alarmsInitialDataLoaded c;
     cached_lastFetchTime := lastFetchTime c |}.

(** [markNotificationAsRead(notificationId)] on the cached notifications. *)
Definition markNotificationAsRead (notificationId : JsVal) (notificationData : list JsObj)
  : list JsObj :=
  if negb (JS.truthy notificationId) then notificationData
  else map (fun notification =>
              if JS.strict_eq (JS.get notification "_id") notificationId
              then <["IsRead" := JBool true]> notification
              else notification) notificationData.

Definition set_connectionCallbacks (l : list Cb) (st : Service) : Service :=
  {| socket := socket st; connected := connected st; listeners := listeners st;
     activeListeners := activeListeners st;
     pendingSubscriptions := pendingSubscriptions st;
     connectionCallbacks := l; cache := cache st |}.

(** [onConnect(callback)]. *)
Definition onConnect (callback : Cb) : M unit :=
  modify (λ st, set_connectionCallbacks (connectionCallbacks st ++ [callback]) st)
  >> let* st := read in
     when (connected st) (tell [CallConnect callback]).

(** [removeConnectCallback(callback)]. *)
Definition removeConnectCallback (callback : Cb) : M unit :=
  modify (λ st, set_connectionCallbacks (remove_first callback (connectionCallbacks st)) st).

(** [unsubscribeFromDevice(id)] or [unsubscribeFromPlant(id)]. *)
Definition unsubscribe (r : Request) : M unit :=
  match r with
  | ReqDevice deviceId => unsubscribeFromDevice deviceId
  | ReqPlant plantId => unsubscribeFromPlant plantId
  end.

(** The message that leaves the room of a request. *)
Definition unsubscribed (r : Request) : Effect :=
  match r with
  | ReqDevice deviceId => Emit "unsubscribe" (JStr deviceId)
  | ReqPlant plantId => Emit "unsubscribe-plant" plantId
  end.

(** The id under which [addAlarmToCache] looks an alarm up. *)
Definition lookup_id (a : JsObj) : JsVal :=
  JS.get a "id" ||| JS.get a "_id" ||| JS.get a "AlarmId" ||| JStr "".

(** An operation that leaves the connection callbacks alone: it keeps their
    list and invokes none of them. *)
Definition no_connect_call (x : Effect) : Prop := ∀ cb, x ≠ CallConnect cb.

Definition keeps_callbacks {A} (m : M A) : Prop :=
  ∀ st, connectionCallbacks (state_after m st) = connectionCallbacks st
        ∧ Forall no_connect_call (effects_of m st).

End SocketService.

(** ** The alarms tab ([AlarmsTab.js]) *)

Module AlarmsTab.

(** [alarmsRef.current] and the cache of the socket service. *)
Record State := {
  alarmsRef : list JsObj;
  cache : SocketService.Cache
}.

Definition createdTime (a : JsObj) : option Z :=
  JS.Date_getTime (JS.get a "CreatedTimestamp").

(** The record that the initial load builds from a fetched alarm. *)
Definition formatFetched (e : JS.Env) (alarm : JsObj) : JsObj :=
  list_to_map [
    ("_id", JS.get alarm "_id" ||| JS.fresh_id "alarm" e);
    ("AlarmId", JS.get alarm "AlarmId" ||| JS.get alarm "alarmId"
                ||| JS.get alarm "id" ||| JStr "");
    ("AlarmCode", JS.get alarm "AlarmCode" ||| JS.get alarm "alarmCode" ||| JStr "");
    ("AlarmDescription",
      JS.get alarm "AlarmDescription" ||| JS.get alarm "alarmDescription"
      ||| JS.get alarm "description" ||| JStr "");
    ("CreatedTimestamp",
      JS.get alarm "CreatedTimestamp" ||| JS.get alarm "createdTimestamp"
      ||| JS.get alarm "timestamp" ||| JStr (JS.nowISO e));
    ("DeviceId", JS.get alarm "DeviceId" ||| JS.get alarm "deviceId" ||| JStr "");
    ("DeviceName",
      JS.get alarm "DeviceName" ||| JS.get alarm "deviceName" ||| JStr "Unknown Device");
    ("PlantName", JS.get alarm "PlantName" ||| JS.get alarm "plantName" ||| JStr "");
    ("IsActive",
      JS.defined_or (JS.get alarm "IsActive")
        (JS.defined_or (JS.get alarm "isActive") (JBool true)));
    ("IsRead",
      JS.defined_or (JS.get alarm "IsRead")
        (JS.defined_or (JS.get alarm "isRead") (JBool false)))
  ].

(** The initial load once the API has answered with a non-empty [data] and
    the component is still mounted: the records are formatted (each with its
    own clock and random readings, [envs i]), sorted newest first, shown and
    handed to the cache of the socket service. *)
Definition loadAlarmsData (envs : nat → JS.Env) (e : JS.Env) (data : list JsObj)
    (st : State) : State :=
  let formattedAlarms := imap (λ i alarm, formatFetched (envs i) alarm) data in
  let sortedAlarms := JS.sort_desc createdTime formattedAlarms in
  {| alarmsRef := sortedAlarms;
     cache := SocketService.cacheAlarmData e sortedAlarms (cache st) |}.

(** [x.toLowerCase() !== y.toLowerCase()]; [None] when one of the two is not
    a string, where the call raises a [TypeError]. *)
Definition differs_ignoring_case (x y : JsVal) : option bool :=
  match x, y with
  | JStr a, JStr b => Some (negb (bool_decide (JS.toLowerCase a = JS.toLowerCase b)))
  | _, _ => None
  end.

(** The plant and device filter at the head of [handleNewAlarm]: [Some true]
    drops the alarm, [None] is the [TypeError] of a field that is no string. *)
Definition filtered_out (selected : JsVal) (name : JsVal) : option bool :=
  if JS.truthy selected then differs_ignoring_case name selected else Some false.

(** The duplicate test of [handleNewAlarm] against one shown record. *)
Definition matches (e : JS.Env) (alarmId : JsVal) (alarmData a : JsObj) : bool :=
  JS.strict_eq (JS.get a "_id") alarmId
  || JS.strict_eq (JS.get a "AlarmId") alarmId
  || (JS.truthy (JS.get alarmData "timestamp")
      && JS.strict_eq (JS.get a "CreatedTimestamp") (JS.get alarmData "timestamp"))
  || (JS.truthy (JS.get alarmData "AlarmCode")
      && JS.strict_eq (JS.get a "AlarmCode") (JS.get alarmData "AlarmCode")
      && match createdTime a with
         | Some t => JS.now e - 5000 <? t
         | None => false
         end).

Definition formattedAlarm (e : JS.Env) (alarmId : JsVal) (alarmData : JsObj) : JsObj :=
  list_to_map [
    ("_id", alarmId);
    ("AlarmId", JS.get alarmData "id" ||| JS.get alarmData "alarmId"
                ||| JS.get alarmData "AlarmId" ||| alarmId);
    ("AlarmCode", JS.get alarmData "alarmCode" ||| JS.get alarmData "AlarmCode"
                  ||| JS.get alarmData "code" ||| JStr "");
    ("AlarmDescription",
      JS.get alarmData "description" ||| JS.get alarmData "alarmDescription"
      ||| JS.get alarmData "AlarmDescription" ||| JS.get alarmData "message"
      ||| JStr "Unknown alarm");
    ("CreatedTimestamp",
      JS.get alarmData "timestamp" ||| JS.get alarmData "createdTimestamp"
      ||| JS.get alarmData "CreatedTimestamp" ||| JStr (JS.nowISO e));
    ("DeviceId", JS.get alarmData "deviceId" ||| JS.get alarmData "DeviceId" ||| JStr "");
    ("DeviceName", JS.get alarmData "deviceName" ||| JS.get alarmData "DeviceName"
                   ||| JStr "Unknown Device");
    ("PlantName", JS.get alarmData "plantName" ||| JS.get alarmData "PlantName" ||| JStr "");
    ("IsActive", JBool true);
    ("IsRead", JBool false);
    ("Source", JStr "websocket")
  ].

(** [handleNewAlarm(alarmData)] for an alarm object that is present;
    [selectedPlant] and [selectedDevice] are the values that the callback
    closed over.  A [TypeError] in the filter leaves the state as it is (the
    caller catches it). *)
Definition handleNewAlarm (selectedPlant selectedDevice : JsVal) (e : JS.Env)
    (alarmData : JsObj) (st : State) : State :=
  let alarmPlantName := JS.get alarmData "PlantName" ||| JS.get alarmData "plantName"
                        ||| JStr "" in
  let alarmDeviceName := JS.get alarmData "DeviceName" ||| JS.get alarmData "deviceName"
                         ||| JStr "" in
  match filtered_out selectedPlant alarmPlantName with
  | None | Some true => st
  | Some false =>
    match filtered_out selectedDevice alarmDeviceName with
    | None | Some true => st
    | Some false =>
      let alarmId :=
        JS.get alarmData "_id" ||| JS.get alarmData "id" ||| JS.get alarmData "alarmId"
        ||| JS.get alarmData "AlarmId" ||| JS.fresh_id "alarm" e in
      let existingAlarmIndex :=
        JS.findIndex (matches e alarmId alarmData) (alarmsRef st) in
      if 0 <=? existingAlarmIndex then st
      else
        let formatted := formattedAlarm e alarmId alarmData in
        let updatedAlarms := JS.sort_desc createdTime (formatted :: alarmsRef st) in
        {| alarmsRef := updatedAlarms;
           cache := SocketService.set_alarmData
                      (SocketService.addAlarmToCache e formatted
                         (SocketService.alarmData (cache st)))
                      (cache st) |}
    end
  end.

(** *** The load on a change of selection *)

(** The request of the initial load to the alarm service. *)
Inductive Fetch : Type :=
  | ByPlantAndDevice (plantName deviceName : JsVal)
  | ByDevice (deviceId : JsVal)
  | AllAlarms.

(** The request that goes with a selection. *)
Definition fetch_for (selectedPlant selectedDevice : JsVal) : Fetch :=
  if JS.truthy selectedPlant then ByPlantAndDevice selectedPlant selectedDevice
  else if JS.truthy selectedDevice then ByDevice selectedDevice
  else AllAlarms.

Definition set_selection (selectedPlant selectedDevice : JsVal)
    (c : SocketService.Cache) : SocketService.Cache :=
  {| SocketService.alarmsInitialDataLoaded := SocketService.alarmsInitialDataLoaded c;
     SocketService.alarmData := SocketService.alarmData c;
     SocketService.lastFetchTime := SocketService.lastFetchTime c;
     SocketService.notificationData := SocketService.notificationData c;
     SocketService.currentPlant := selectedPlant;
     SocketService.currentDevice := selectedDevice |}.

(** The effect that runs when the selected plant or device changes (and when
    the tab is mounted), on a component that stays mounted; [api] is what the
    alarm service answers to each request.  The cached list is shown when it
    was loaded for the same selection; otherwise the cache is cleared, the
    selection is stored in it and the alarms are fetched. *)
Definition load_on_selection (selectedPlant selectedDevice : JsVal)
    (envs : nat → JS.Env) (e : JS.Env) (api : Fetch → list JsObj) (st : State) : State :=
  let cachedData := SocketService.getCachedAlarmData (cache st) in
  let useCache :=
    SocketService.cached_isLoaded cachedData
    && (0 <? Z.of_nat (length (SocketService.cached_data cachedData)))
    && JS.strict_eq (SocketService.currentPlant (cache st)) selectedPlant
    && JS.strict_eq (SocketService.currentDevice (cache st)) selectedDevice in
  if useCache
  then {| alarmsRef := SocketService.cached_data cachedData; cache := cache st |}
  else
    let c := set_selection selectedPlant selectedDevice
               (SocketService.clearAlarmCache (cache st)) in
    let data := api (fetch_for selectedPlant selectedDevice) in
    match data with
    | [] => {| alarmsRef := []; cache := SocketService.cacheAlarmData e [] c |}
    | _ => loadAlarmsData envs e data {| alarmsRef := []; cache := c |}
    end.

(** The id that [handleNewAlarm] reads off an alarm. *)
Definition shown_id (a : JsObj) : JsVal :=
  JS.get a "_id" ||| JS.get a "id" ||| JS.get a "alarmId" ||| JS.get a "AlarmId".


End AlarmsTab.

(** ** The alarm notification menu ([alarmNotification.js]) *)

Module AlarmNotification.

Record State := {
  alarmsRef : list JsObj;
  unreadCount : Z
}.

(** [Math.abs(existingTimestamp - newTimestamp) < 5000]; a [NaN] operand
    makes the comparison false. *)
Definition within_window (existing new : option Z) : bool :=
  match existing, new with
  | Some x, Some y => Z.abs (x - y) <? 5000
  | _, _ => false
  end.

(** [processAlarm(alarmData)] for an alarm object that is present. *)
Definition processAlarm (e : JS.Env) (alarmData : JsObj) (st : State) : State :=
  let uniqueId := JS.fresh_id "alarm" e in
  let timestamp :=
    JS.get alarmData "timestamp" ||| JS.get alarmData "createdTimestamp"
    ||| JS.get alarmData "CreatedTimestamp" ||| JStr (JS.nowISO e) in
  let newTimestamp := JS.Date_getTime timestamp in
  let alarmCode :=
    JS.get alarmData "alarmCode" ||| JS.get alarmData "AlarmCode"
    ||| (if JS.truthy (JS.get alarmData "code") then JS.get alarmData "code" else JStr "")
    ||| JStr "ALARM" in
  let deviceName :=
    JS.get alarmData "deviceName" ||| JS.get alarmData "DeviceName"
    ||| (if JS.truthy (JS.get alarmData "device") then JS.get alarmData "device"
         else JStr "")
    ||| JStr "Unknown Device" in
  let isDuplicate :=
    existsb (λ alarm,
      if negb (JS.strict_eq (JS.get alarm "AlarmCode") alarmCode)
         || negb (JS.strict_eq (JS.get alarm "DeviceName") deviceName)
      then false
      else within_window (JS.Date_getTime (JS.get alarm "CreatedTimestamp")) newTimestamp)
      (alarmsRef st) in
  if isDuplicate then st
  else
    let formattedAlarm : JsObj :=
      list_to_map [
        ("_id", JS.get alarmData "_id" ||| JS.get alarmData "id" ||| uniqueId);
        ("AlarmId", JS.get alarmData "AlarmId" ||| JS.get alarmData "alarmId"
                    ||| JS.get alarmData "id" ||| uniqueId);
        ("AlarmCode", alarmCode);
        ("AlarmDescription",
          JS.get alarmData "description" ||| JS.get alarmData "AlarmDescription"
          ||| JS.get alarmData "alarmDescription" ||| JS.get alarmData "message"
          ||| JStr "New alarm notification");
        ("CreatedTimestamp", timestamp);
        ("DeviceId", JS.get alarmData "deviceId" ||| JS.get alarmData "DeviceId"
                     ||| JS.get alarmData "device" ||| JStr "");
        ("DeviceName", deviceName);
        ("PlantName", JS.get alarmData "plantName" ||| JS.get alarmData "PlantName"
                      ||| JS.get alarmData "plant" ||| JStr "");
        ("AlarmValue", JS.get alarmData "alarmValue" ||| JS.get alarmData "AlarmValue"
                       ||| JS.get alarmData "value" ||| JStr "");
        ("IsActive", JBool true);
        ("IsRead", JBool false);
        ("Source", JStr "websocket")
      ] in
    {| alarmsRef := formattedAlarm :: take 9 (alarmsRef st);
       unreadCount := unreadCount st + 1 |}.

End AlarmNotification.

(** ** The alarm service of the client ([alarmService.js]) *)

Module AlarmService.

(** What a request rejects with: the HTTP status of the response, when there
    is one, whether the error has a [code], and whether its message mentions
    a timeout or the network. *)
Record ApiError := {
  status : option Z;
  has_code : bool;
  mentions_timeout : bool;
  mentions_network : bool
}.

Inductive Body : Type :=
  | BArray (items : list JsObj)
  | BObject (o : JsObj)
  | BNone.

Record Response := {
  rstatus : Z;
  data : Body
}.

(** A request resolves with a response or rejects with an error; the
    outcome may change from one attempt to the next. *)
Definition ApiCall : Type := nat → Response + ApiError.

Definition isServerError (err : ApiError) : bool :=
  match status err with
  | Some st => (500 <=? st) && (st <? 600)
  | None => false
  end.

Definition isNetworkError (err : ApiError) : bool :=
  match status err with
  | Some st => if st =? 0 then has_code err || mentions_timeout err || mentions_network err
               else false
  | None => has_code err || mentions_timeout err || mentions_network err
  end.

(** The loop of [apiCallWithRetry], from attempt [attempt] with [remaining]
    retries left. *)
Fixpoint retry_from (apiCall : ApiCall) (attempt remaining : nat)
  : Response + ApiError :=
  match apiCall attempt with
  | inl response => inl response
  | inr error =>
      if negb (isServerError error) && negb (isNetworkError error) then inr error
      else match remaining with
           | O => inr error
           | S remaining' => retry_from apiCall (S attempt) remaining'
           end
  end.

(** [apiCallWithRetry(apiCall, maxRetries = 2)]: [inr] is the exception that
    leaves the helper. *)
Definition apiCallWithRetry (apiCall : ApiCall) : Response + ApiError :=
  retry_from apiCall 0 2.

Definition array_or_empty (b : Body) : list JsObj :=
  match b with
  | BArray items => items
  | _ => []
  end.

(** [getAllAlarms()]. *)
Definition getAllAlarms (apiCall : ApiCall) : list JsObj :=
  match apiCallWithRetry apiCall with
  | inl response => array_or_empty (data response)
  | inr _ => []
  end.

(** [getAlarmsByDevice(deviceId)]. *)
Definition getAlarmsByDevice (deviceId : JsVal) (apiCall : ApiCall) : list JsObj :=
  if negb (JS.truthy deviceId) then []
  else match apiCallWithRetry apiCall with
       | inl response => array_or_empty (data response)
       | inr _ => []
       end.

Definition success (response : Response) : bool :=
  (200 <=? rstatus response) && (rstatus response <? 300).

(** [markAlarmAsRead(alarmId)]. *)
Definition markAlarmAsRead (alarmId : JsVal) (apiCall : ApiCall) : bool :=
  if negb (JS.truthy alarmId) then false
  else match apiCallWithRetry apiCall with
       | inl response => success response
       | inr _ => false
       end.

(** [markAllAlarmsAsRead()]. *)
Definition markAllAlarmsAsRead (apiCall : ApiCall) : bool :=
  match apiCallWithRetry apiCall with
  | inl response => success response
  | inr _ => false
  end.

(** The backing service is unavailable: every attempt rejects. *)
Definition unavailable (apiCall : ApiCall) : Prop :=
  ∀ attempt, ∃ error, apiCall attempt = inr error.

(** An error after which the helper tries again. *)
Definition retried (err : ApiError) : Prop :=
  isServerError err = true ∨ isNetworkError err = true.

End AlarmService.

(** ** The event bus of the client ([eventBusService.js]) *)

Module EventBus.

(** [eventBus.listeners]: the callbacks of each event, in the order of their
    registration (for event names that are no property of every object). *)
Definition Bus : Type := gmap string (list SocketService.Cb).

(** [on(event, callback)]; the unsubscribe function that it returns is
    [off(event, callback)]. *)
Definition on (event : string) (callback : SocketService.Cb) (bus : Bus) : Bus :=
  <[event := default [] (bus !! event) ++ [callback]]> bus.

(** [off(event, callback)]: [indexOf] and [splice(index, 1)]. *)
Definition off (event : string) (callback : SocketService.Cb) (bus : Bus) : Bus :=
  match bus !! event with
  | None => bus
  | Some callbacks => <[event := SocketService.remove_first callback callbacks]> bus
  end.

(** [emit(event, data)]: the callbacks it invokes, in order (the callbacks
    themselves do not change the bus while it emits). *)
Definition emit (event : string) (data : JsObj) (bus : Bus) : list SocketService.Effect :=
  match bus !! event with
  | None => []
  | Some callbacks => (λ callback, SocketService.Call callback data) <$> callbacks
  end.

(** The calls that the bus makes when the effects of the socket service reach
    it: one [emit] for each [eventBus.emit] of the service. *)
Definition dispatch (bus : Bus) (out : list SocketService.Effect)
  : list SocketService.Effect :=
  out ≫= λ x, match x with
              | SocketService.BusEmit event data => emit event data bus
              | _ => []
              end.

End EventBus.

(** ** The notification context of the client ([notificationContext.js]) *)

Module NotificationContext.

(** The state of the provider. *)
Record State := {
  unreadCount : Z;
  notifications : list JsObj;
  loading : bool;
  error : option string;
  lastUpdated : Z
}.

(** [fetchNotifications()] on what [getAllNotifications()] resolves with, or
    on the message of the error that it rejects with. *)
Definition fetchNotifications (answer : AlarmService.Body + string) (st : State) : State :=
  match answer with
  | inl (AlarmService.BArray data) =>
      {| unreadCount := unreadCount st; notifications := data; loading := false;
         error := None; lastUpdated := lastUpdated st |}
  | inl _ =>
      {| unreadCount := unreadCount st; notifications := []; loading := false;
         error := Some "Invalid data format received from server";
         lastUpdated := lastUpdated st |}
  | inr message =>
      {| unreadCount := unreadCount st; notifications := []; loading := false;
         error := Some (if bool_decide (message = "") then "Failed to fetch notifications"
                        else message);
         lastUpdated := lastUpdated st |}
  end.

(** The test of [handleNewNotification] for a notification that the list
    holds already. *)
Definition exists_in (notification : JsObj) (prevNotifications : list JsObj) : bool :=
  existsb (λ n, JS.strict_eq (JS.get n "_id") (JS.get notification "_id")
                || JS.strict_eq (JS.get n "NotificationId")
                     (JS.get notification "NotificationId"))
    prevNotifications.

(** [handleNewNotification(notification)], the callback of [onNotification]. *)
Definition handleNewNotification (e : JS.Env) (notification : JsObj) (st : State) : State :=
  {| unreadCount := unreadCount st + 1;
     notifications := if exists_in notification (notifications st) then notifications st
                      else notification :: notifications st;
     loading := loading st; error := error st; lastUpdated := JS.now e |}.

End NotificationContext.

(** ** The socket service and the server on one connection *)

Module Wire.

(** The rooms of a client on the server after the messages that its socket
    service has sent ([socket.emit]) have reached the handlers of
    [io.on("connection")]; a payload that is an object reads as
    [[object Object]] in the name of a room. *)
Definition joined (out : list SocketService.Effect) (rooms : gset string) : gset string :=
  foldl (λ r x,
           match x with
           | SocketService.Emit event arg => Server.client_event event arg r
           | SocketService.EmitObj event _ =>
               Server.client_event event (JStr "[object Object]") r
           | _ => r
           end) rooms out.

(** The room of the device that an entry of the pending set stands for. *)
Definition device_rooms (pending : list string) : gset string :=
  list_to_set ((λ sub, "device:" +:+ sub)
                 <$> filter (λ sub, JS.startsWith sub "plant-" = false) pending).

End Wire.

(** ** Notions of the design document *)

Module Design.

(** A list is newest first: every record has a valid creation time that is
    not before the time of any record after it. *)
Definition not_before (a b : JsObj) : Prop :=
  match AlarmsTab.createdTime a, AlarmsTab.createdTime b with
  | Some ta, Some tb => tb ≤ ta
  | _, _ => False
  end.

Definition newest_first (l : list JsObj) : Prop := StronglySorted not_before l.


(** The fields that tell which logical event a cached record stands for. *)
Definition identity_fields (r : JsObj) : JsVal * JsVal * JsVal * JsVal :=
  (JS.get r "AlarmId", JS.get r "AlarmCode", JS.get r "DeviceName",
   JS.get r "CreatedTimestamp").

(** [rename k k' o]: the object [o] with the property [k] spelled [k']. *)
Definition rename (k k' : string) (o : JsObj) : JsObj :=
  match o !! k with
  | Some v => <[k' := v]> (delete k o)
  | None => o
  end.

(** The spellings under which [normalizeAlarmObject] looks up each field. *)
Definition alias_classes : list (list string) :=
  [ ["AlarmId"; "alarmId"];
    ["AlarmCode"; "alarmCode"];
    ["AlarmDescription"; "alarmDescription"; "description"];
    ["CreatedTimestamp"; "createdTimestamp"; "timestamp"];
    ["DeviceId"; "deviceId"];
    ["DeviceName"; "deviceName"];
    ["PlantName"; "plantName"];
    ["IsActive"; "isActive"];
    ["IsRead"; "isRead"] ].

(** The object carries the field of the class [cls] under the spelling [k]
    only. *)
Definition carried_by (cls : list string) (k : string) (o : JsObj) : Prop :=
  ∀ k', k' ∈ cls → k' ≠ k → o !! k' = None.

End Design.

(** ** Concrete events and states used below *)

Module Scenarios.

Definition env1 : JS.Env :=
  {| JS.now := 1747389600100; JS.nowISO := "2025-05-16T10:00:00.100Z"; JS.rand := "k3f9a" |}.

Definition env2 : JS.Env :=
  {| JS.now := 1747389600300; JS.nowISO := "2025-05-16T10:00:00.300Z"; JS.rand := "p0q1z" |}.

(** Telemetry of an ordinary device. *)
Definition telemetry_esp32_01 : JsObj :=
  list_to_map [("deviceId", JStr "esp32_01"); ("temperature", JNum 21)].

(** Telemetry of the device that the server singles out. *)
Definition telemetry_esp32_04 : JsObj :=
  list_to_map [("deviceId", JStr "esp32_04"); ("temperature", JNum 21)].

(** The alarm of the first example scenario of the design document, and
    another alarm of another device. *)
Definition alarm_io_108 : JsObj :=
  list_to_map [("AlarmCode", JStr "IO_ALR_108"); ("DeviceId", JStr "esp32_04")].

Definition alarm_io_106 : JsObj :=
  list_to_map [("AlarmCode", JStr "IO_ALR_106"); ("DeviceId", JStr "esp32_01")].

(** An alarm that carries its id as [alarmId] and its time as
    [createdTimestamp]. *)
Definition repeated_alarm : JsObj :=
  list_to_map [("alarmId", JStr "A-1"); ("alarmCode", JStr "IO_ALR_108");
               ("deviceName", JStr "esp32_04");
               ("createdTimestamp", JStr "2025-05-16T10:00:00.000Z")].

(** The same alarm without any id. *)
Definition unidentified_alarm : JsObj :=
  list_to_map [("alarmCode", JStr "IO_ALR_108"); ("deviceName", JStr "esp32_04");
               ("createdTimestamp", JStr "2025-05-16T10:00:00.000Z")].

(** A list as the initial load leaves it, newest first, and an alarm that is
    older than both of its records. *)
Definition loaded_alarms : list JsObj :=
  [ list_to_map [("_id", JStr "a"); ("AlarmId", JStr "ALM001");
                 ("AlarmCode", JStr "IO_ALR_108"); ("DeviceName", JStr "esp32_04");
                 ("CreatedTimestamp", JStr "2025-05-16T10:00:00.000Z")];
    list_to_map [("_id", JStr "c"); ("AlarmId", JStr "ALM002");
                 ("AlarmCode", JStr "IO_ALR_109"); ("DeviceName", JStr "esp32_04");
                 ("CreatedTimestamp", JStr "2025-05-16T09:30:00.000Z")] ].

Definition older_alarm : JsObj :=
  list_to_map [("id", JStr "b"); ("alarmCode", JStr "IO_ALR_106");
               ("deviceName", JStr "esp32_04");
               ("timestamp", JStr "2025-05-16T09:00:00.000Z")].

Definition empty_tab : AlarmsTab.State :=
  {| AlarmsTab.alarmsRef := []; AlarmsTab.cache := SocketService.empty_cache |}.

Definition loaded_tab : AlarmsTab.State :=
  {| AlarmsTab.alarmsRef := loaded_alarms;
     AlarmsTab.cache :=
       SocketService.cacheAlarmData env1 loaded_alarms SocketService.empty_cache |}.

Definition empty_menu : AlarmNotification.State :=
  {| AlarmNotification.alarmsRef := []; AlarmNotification.unreadCount := 0 |}.

(** Two stored documents that differ in the casing of one field name. *)
Definition doc_upper : JsObj :=
  list_to_map [("_id", JStr "665f1c"); ("AlarmCode", JStr "IO_ALR_108");
               ("DeviceId", JStr "esp32_04");
               ("CreatedTimestamp", JStr "2025-05-16T10:00:00.000Z")].

Definition doc_lower : JsObj :=
  list_to_map [("_id", JStr "665f1c"); ("alarmCode", JStr "IO_ALR_108");
               ("DeviceId", JStr "esp32_04");
               ("CreatedTimestamp", JStr "2025-05-16T10:00:00.000Z")].

(** The service once its socket is connected. *)
Definition connected_service : SocketService.Service :=
  SocketService.state_after (SocketService.on_connect env1)
    (SocketService.state_after SocketService.connect SocketService.new_service).

Definition notification_1 : JsObj :=
  list_to_map [("id", JStr "n-1"); ("type", JStr "alarm"); ("title", JStr "IO_ALR_108")].

(** A backing service that refuses every connection, and one that answers
    with no alarms. *)
Definition service_down : AlarmService.ApiCall :=
  λ _, inr {| AlarmService.status := None; AlarmService.has_code := true;
              AlarmService.mentions_timeout := false;
              AlarmService.mentions_network := true |}.

Definition service_empty : AlarmService.ApiCall :=
  λ _, inl {| AlarmService.rstatus := 200; AlarmService.data := AlarmService.BArray [] |}.

(** What the database holds: two alarms, the second without the id of its
    device. *)
Definition found_alarms : AlarmController.Found :=
  {| AlarmController.matching := [doc_upper; unidentified_alarm];
     AlarmController.alternative := None |}.


End Scenarios.

(** ** Properties *)

Import Scenarios Design.

(** A decidable closed statement, settled by evaluating its decision. *)
Ltac by_compute :=
  match goal with
  | |- ?P => apply (bool_decide_eq_true_1 P); vm_compute; reflexivity
  end.

Ltac in_list := repeat (first [apply list_elem_of_here | apply list_elem_of_further]).

(** *** The read mark of the cache *)

(** C10 (frame condition of the single-record read mark).  On every cached
    list and every id, [markAlarmAsRead] keeps the length and the positions of
    the records; a record whose [_id] equals the id gets [IsRead = true] and
    keeps each of its other properties; a record with another [_id] is
    unchanged; and the whole list is unchanged when no record matches or when
    the id is absent or empty (falsy). *)
Theorem markAlarmAsRead_frame (alarmId : JsVal) (alarmData : list JsObj) :
  let out := SocketService.markAlarmAsRead alarmId alarmData in
  length out = length alarmData
  ∧ (∀ (i : nat) (a : JsObj), alarmData !! i = Some a →
       ∃ a', out !! i = Some a'
         ∧ (JS.truthy alarmId = true → JS.get a "_id" = alarmId →
              a' !! "IsRead" = Some (JBool true)
              ∧ ∀ k : string, k ≠ "IsRead" → a' !! k = a !! k)
         ∧ (JS.get a "_id" ≠ alarmId → a' = a))
  ∧ ((∀ a, a ∈ alarmData → JS.get a "_id" ≠ alarmId) → out = alarmData)
  ∧ (JS.truthy alarmId = false → out = alarmData).
Proof.
  cbn zeta. unfold SocketService.markAlarmAsRead.
  destruct (JS.truthy alarmId) eqn:Ht; cbn [negb].
  - repeat split.
    + by rewrite length_map.
    + intros i a Hi. rewrite list_lookup_fmap, Hi. cbn.
      eexists; split; [reflexivity|]. unfold JS.strict_eq. split.
      * intros _ Heq. rewrite bool_decide_eq_true_2 by done.
        split; [apply lookup_insert_eq|].
        intros k Hk. by rewrite lookup_insert_ne.
      * intros Hne. by rewrite bool_decide_eq_false_2.
    + intros Hno. induction alarmData as [|a l IH]; [done|]. cbn.
      unfold JS.strict_eq at 1.
      rewrite bool_decide_eq_false_2 by (apply Hno; left).
      f_equal. apply IH. intros b Hb. apply Hno. by right.
    + done.
  - repeat split; try done.
    intros i a Hi. exists a. repeat split; try done.
Qed.

Lemma markAlarmAsRead_frame_witness :
  SocketService.markAlarmAsRead (JStr "zzz") loaded_alarms = loaded_alarms.
Proof.
  apply (proj1 (proj2 (proj2 (markAlarmAsRead_frame (JStr "zzz") loaded_alarms)))).
  intros a Ha. unfold loaded_alarms in Ha.
  repeat (apply elem_of_cons in Ha as [Ha|Ha]; [rewrite Ha; vm_compute; discriminate|]).
  by apply elem_of_nil in Ha.
Defined.

(** *** The fan-out router *)





(** The channels of the three example messages. *)
Example route_telemetry_esp32_04 :
  Server.channel <$> Server.route Server.Telemetry env1 ["s1"; "s2"] (Some telemetry_esp32_04)
  = [ (Server.Broadcast, "telemetry");
      (Server.Broadcast, "telemetry_esp32_04");
      (Server.Room "device:esp32_04", "telemetry-esp32_04");
      (Server.Broadcast, "broadcast");
      (Server.ToSocket "s1", "telemetry-esp32_04");
      (Server.ToSocket "s2", "telemetry-esp32_04");
      (Server.Room "plant:2", "telemetry") ].
Proof. by vm_compute. Qed.

Example route_telemetry_esp32_01 :
  Server.channel <$> Server.route Server.Telemetry env1 ["s1"; "s2"] (Some telemetry_esp32_01)
  = [ (Server.Room "device:esp32_01", "telemetry"); (Server.Room "plant:1", "telemetry") ].
Proof. by vm_compute. Qed.

Example route_alarm_io_108 :
  Server.channel <$> Server.route Server.Alarm env1 ["s1"; "s2"] (Some alarm_io_108)
  = [ (Server.Broadcast, "alarm");
      (Server.Room "device:esp32_04", "alarm");
      (Server.Room "plant:1", "alarm");
      (Server.Broadcast, "alarm_notification") ].
Proof. by vm_compute. Qed.




(** *** The subscription manager of the client *)

Import SocketService.

Ltac unfold_ops :=
  unfold state_after, result_of, effects_of, onNotification, subscribeToNotifications,
    onAlarmLike, onTelemetry, removeAllTelemetryListeners, removeListener, dispose,
    bind, read, when, off, on, push_listener, connect, modify, tell, ret.

Section monad_laws.
Context {A B : Type} (m : M A) (k : A → M B) (st : Service).

Lemma effects_of_bind :
  effects_of (bind m k) st
  = effects_of m st ++ effects_of (k (result_of m st)) (state_after m st).
Proof.
  unfold effects_of, result_of, state_after, bind.
  destruct (m st) as [[x st1] o1]. cbn. by destruct (k x st1) as [[y st2] o2].
Qed.

Lemma state_after_bind :
  state_after (bind m k) st = state_after (k (result_of m st)) (state_after m st).
Proof.
  unfold effects_of, result_of, state_after, bind.
  destruct (m st) as [[x st1] o1]. cbn. by destruct (k x st1) as [[y st2] o2].
Qed.

Lemma result_of_bind :
  result_of (bind m k) st = result_of (k (result_of m st)) (state_after m st).
Proof.
  unfold effects_of, result_of, state_after, bind.
  destruct (m st) as [[x st1] o1]. cbn. by destruct (k x st1) as [[y st2] o2].
Qed.

End monad_laws.

Lemma state_after_times_S {A} (n : nat) (m : M A) (st : Service) :
  state_after (times (S n) m) st = state_after (times n m) (state_after m st).
Proof. cbn [times]. by rewrite state_after_bind. Qed.

(** The handlers of the socket under [on] and [off]. *)
Lemma handlers_for_on (event ev : string) (h : Handler) (s : Socket) :
  handlers_for ev (sock_on event h s)
  = handlers_for ev s ++ (if bool_decide (event = ev) then [h] else []).
Proof.
  unfold handlers_for, sock_on. cbn. rewrite filter_app, fmap_app. f_equal.
  rewrite filter_cons, filter_nil. cbn. by repeat case_decide; case_bool_decide.
Qed.

Lemma handlers_for_off_eq (event : string) (s : Socket) :
  handlers_for event (sock_off event s) = [].
Proof.
  unfold handlers_for, sock_off. destruct s as [c hs]. unfold handlers.
  induction hs as [|[ev h] l IH]; [done|].
  rewrite (filter_cons (λ eh : string * Handler, eh.1 ≠ event)).
  destruct (decide ((ev, h).1 ≠ event)) as [Hne|Heq]; [|done].
  rewrite filter_cons. by destruct (decide ((ev, h).1 = event)).
Qed.

Lemma hasListeners_false (event : string) (s : Socket) :
  sock_hasListeners event s = false → handlers_for event s = [].
Proof.
  unfold handlers_for, sock_hasListeners. destruct s as [c hs]. unfold handlers.
  induction hs as [|[ev h] l IH]; [done|].
  rewrite filter_cons. cbn [existsb]. intros [H1 H2]%orb_false_elim.
  apply bool_decide_eq_false in H1. destruct (decide ((ev, h).1 = event)); [done|].
  by apply IH.
Qed.

Lemma calls_Call (data : JsObj) (l : list Cb) : calls ((λ cb, Call cb data) <$> l) = l.
Proof. unfold calls. induction l as [|x l IH]; [done|]. cbn. by rewrite IH. Qed.

(** What one registration leaves behind. *)
Lemma onAlarmLike_registered e event h cb st :
  is_Some (socket st) →
  let st' := state_after (onAlarmLike e event h cb) st in
  (∃ s', socket st' = Some s' ∧ handlers_for event s' = [h])
  ∧ listeners st' !! event = Some [cb]
  ∧ result_of (onAlarmLike e event h cb) st = Some (DRemove event cb).
Proof.
  intros [s Hs]. cbn zeta. unfold_ops. rewrite Hs.
  destruct (sock_hasListeners event s) eqn:Hl; destruct (isConnected st); cbn; rewrite ?Hs; cbn;
  (split; [eexists; split; [reflexivity|] | split; [|done]]);
  rewrite ?handlers_for_on, ?handlers_for_off_eq, ?bool_decide_eq_true_2 by done;
  rewrite ?(hasListeners_false _ _ Hl); try done;
  by rewrite lookup_insert_eq; cbn; rewrite lookup_insert_eq.
Qed.

Lemma onTelemetry_registered cb device st :
  is_Some (socket st) →
  let st' := state_after (onTelemetry cb device) st in
  (∃ s', socket st' = Some s' ∧ handlers_for "telemetry" s' = [HTelemetry cb device])
  ∧ is_Some (result_of (onTelemetry cb device) st).
Proof.
  intros [s Hs]. cbn zeta. unfold_ops. unfold isConnected. rewrite Hs.
  destruct (connected st) eqn:Hc, (sock_connected s) eqn:Hsc;
  repeat (progress (cbn; rewrite ?Hs, ?Hc, ?Hsc));
  repeat case_bool_decide; repeat (progress (cbn; rewrite ?Hs, ?Hc, ?Hsc));
  destruct (JS.truthy (currentDevice (cache st)));
  repeat (progress (cbn; rewrite ?Hs, ?Hc, ?Hsc));
  (split; [eexists; split; [reflexivity|] | by eexists]);
  by rewrite handlers_for_on, handlers_for_off_eq, bool_decide_eq_true_2.
Qed.

Lemma onNotification_first cb st :
  is_Some (socket st) → no_notification_listener st →
  notification_listener [cb] (state_after (onNotification cb) st).
Proof.
  intros [s Hs] (Hl & Ha & Hh). specialize (Hh s Hs).
  unfold notification_listener. unfold_ops.
  repeat (progress (cbn; rewrite ?Hl, ?Ha, ?Hs)).
  destruct (connected st); cbn;
    (split; [eexists; split; [reflexivity|] | split]);
    rewrite ?handlers_for_on, ?Hh, ?bool_decide_eq_true_2 by done; try done;
    rewrite ?lookup_insert_eq; try done.
Qed.

Lemma onNotification_next cb l st :
  notification_listener l st →
  notification_listener (l ++ [cb]) (state_after (onNotification cb) st).
Proof.
  intros ((s & Hs & Hh) & Hl & [a Ha]).
  unfold notification_listener. unfold_ops.
  repeat (progress (cbn; rewrite ?Hl, ?Ha, ?Hs)).
  destruct (connected st); cbn; rewrite ?Hs;
    (split; [eexists; split; [reflexivity|done] | split]);
    rewrite ?lookup_insert_eq; try done.
Qed.

Lemma times_notification n cb l st :
  notification_listener l st →
  notification_listener (l ++ replicate n cb)
    (state_after (times n (onNotification cb)) st).
Proof.
  revert l st. induction n as [|n IH]; intros l st Hinv.
  - by rewrite app_nil_r.
  - rewrite state_after_times_S. replace (l ++ replicate (S n) cb)
      with ((l ++ [cb]) ++ replicate n cb) by (by rewrite <- app_assoc).
    apply IH. by apply onNotification_next.
Qed.

Lemma register_keeps_socket e k cb st :
  is_Some (socket st) → is_Some (socket (state_after (register e k cb) st)).
Proof.
  intros Hs. destruct k; cbn [register]; unfold onAlarm, onAlarmNotification.
  - destruct (onTelemetry_registered cb device st Hs) as [(s' & -> & _) _]. by eexists.
  - destruct (onAlarmLike_registered e "alarm" HAlarm cb st Hs) as [(s' & -> & _) _].
    by eexists.
  - destruct (onAlarmLike_registered e "alarm_notification" HAlarmNotification cb st Hs)
      as [(s' & -> & _) _]. by eexists.
  - destruct Hs as [s Hs].
    unfold_ops. repeat (progress (cbn; rewrite ?Hs)).
    repeat (case_bool_decide; repeat (progress (cbn; rewrite ?Hs)));
      destruct (connected st); repeat (progress (cbn; rewrite ?Hs)); by eexists.
Qed.

Lemma register_registered e k cb st :
  is_Some (socket st) → registered k cb (state_after (register e k cb) st).
Proof.
  intros Hs. destruct k; cbn [register registered]; unfold onAlarm, onAlarmNotification;
    [| | |done].
  - by destruct (onTelemetry_registered cb device st Hs) as [? _].
  - by destruct (onAlarmLike_registered e "alarm" HAlarm cb st Hs) as (? & ? & _).
  - by destruct (onAlarmLike_registered e "alarm_notification" HAlarmNotification cb st Hs)
      as (? & ? & _).
Qed.

Lemma times_registered e k cb n st :
  is_Some (socket st) →
  registered k cb (state_after (times (S n) (register e k cb)) st)
  ∧ is_Some (socket (state_after (times (S n) (register e k cb)) st)).
Proof.
  revert st. induction n as [|n IH]; intros st Hs.
  - rewrite state_after_times_S. cbn [times]. unfold state_after at 1 3, ret. cbn.
    split; [by apply register_registered | by apply register_keeps_socket].
  - rewrite state_after_times_S. apply IH. by apply register_keeps_socket.
Qed.

(** What an inbound event reaches. *)
Lemma receive_alarm_like e event h data st s :
  socket st = Some s → handlers_for event s = [h] → alarm_like event h →
  calls (effects_of (receive e event data) st) = default [] (listeners st !! event).
Proof.
  intros Hs Hh Hk. unfold effects_of, receive, bind, read. rewrite Hs, Hh.
  destruct Hk as [[-> ->]|[-> ->]]; cbn; rewrite !app_nil_r; apply calls_Call.
Qed.

Lemma receive_telemetry e cb device data st s :
  socket st = Some s → handlers_for "telemetry" s = [HTelemetry cb device] →
  telemetry_passes device data = Some true →
  calls (effects_of (receive e "telemetry" data) st) = [cb].
Proof.
  intros Hs Hh Hp. unfold effects_of, receive, bind, read. rewrite Hs, Hh.
  cbn. by rewrite Hp.
Qed.

Lemma receive_notification e data st s :
  socket st = Some s → handlers_for "notification" s = [HNotification] →
  calls (effects_of (receive e "notification" data) st)
  = default [] (listeners st !! "notification").
Proof.
  intros Hs Hh. unfold effects_of, receive, bind, read. rewrite Hs, Hh.
  cbn. rewrite !app_nil_r. apply calls_Call.
Qed.

Lemma registered_delivers e k cb data st :
  k ≠ KNotification → registered k cb st → passes k data →
  calls (effects_of (receive e (event_name k) data) st) = [cb].
Proof.
  intros Hk Hr Hp. destruct k; cbn [registered event_name passes] in *; [| | |done].
  - destruct Hr as (s & Hs & Hh). by eapply receive_telemetry.
  - destruct Hr as ((s & Hs & Hh) & Hl).
    rewrite (receive_alarm_like e "alarm" HAlarm data st s Hs Hh), Hl; [done|by left].
  - destruct Hr as ((s & Hs & Hh) & Hl).
    rewrite (receive_alarm_like e "alarm_notification" HAlarmNotification data st s Hs Hh), Hl;
      [done|by right].
Qed.

(** Against C5 as it is written: a notification callback that is registered
    twice is invoked twice by one inbound notification. *)
Lemma notification_delivered_twice :
  calls (effects_of (receive env2 "notification" notification_1)
           (state_after (times 2 (register env1 KNotification 7%nat)) connected_service))
  = [7%nat; 7%nat].
Proof. by vm_compute. Qed.

(** C5, amended (registration and deliveries).  On a service whose socket
    exists, after a callback has been registered N >= 1 times for telemetry,
    alarm or alarm_notification, one inbound event of that kind (which passes
    the device filter, for telemetry) invokes the callback exactly once: each
    registration replaces the socket handler and, for the alarm kinds, the
    callback list of its kind.  For notification the socket handler is set up
    once and the callback list only grows: after N registrations on a service
    without notification listener, one inbound notification invokes the
    callback N times. *)
Theorem registration_deliveries
    (e e' : JS.Env) (k : EventKind) (cb : Cb) (n : nat) (data : JsObj) (st : Service) :
  is_Some (socket st) →
  let st' := state_after (times (S n) (register e k cb)) st in
  let delivered := calls (effects_of (receive e' (event_name k) data) st') in
  (k ≠ KNotification → passes k data → delivered = [cb])
  ∧ (k = KNotification → no_notification_listener st → delivered = replicate (S n) cb).
Proof.
  intros Hs. cbn zeta. split.
  - intros Hk Hp. apply registered_delivers; [done| |done].
    by apply times_registered.
  - intros -> Hfresh. rewrite state_after_times_S. cbn [register event_name].
    pose proof (times_notification n cb [cb] _ (onNotification_first cb st Hs Hfresh))
      as ((s & Hs' & Hh) & Hl & _).
    by rewrite (receive_notification e' data _ s Hs' Hh), Hl.
Qed.

Lemma registration_deliveries_witness :
  calls (effects_of (receive env2 "alarm" alarm_io_108)
           (state_after (times 3 (register env1 KAlarm 7%nat)) connected_service))
  = [7%nat].
Proof.
  assert (Hs : is_Some (socket connected_service)) by (by eexists).
  assert (Hk : KAlarm ≠ KNotification) by discriminate.
  exact (proj1 (registration_deliveries env1 env2 KAlarm 7%nat 2 alarm_io_108
                  connected_service Hs) Hk I).
Defined.












(** *** The reconciliation cache *)

(** C1 (one record per logical event).  The merge of the socket service does
    not keep it: an alarm that carries its id as [alarmId] and its time as
    [createdTimestamp], delivered twice, leaves two records in the cache, both
    for the same id, code, device and time.  The merge of the alarms tab does
    the same with an alarm that has no id; the merge of the notification menu
    absorbs the second delivery. *)
Theorem addAlarmToCache_keeps_duplicate :
  let once := SocketService.addAlarmToCache env1 repeated_alarm [] in
  let twice := SocketService.addAlarmToCache env2 repeated_alarm once in
  length once = 1%nat ∧ length twice = 2%nat
  ∧ identity_fields <$> twice
    = [ (JStr "A-1", JStr "IO_ALR_108", JStr "esp32_04", JStr "2025-05-16T10:00:00.000Z");
        (JStr "A-1", JStr "IO_ALR_108", JStr "esp32_04", JStr "2025-05-16T10:00:00.000Z") ]
  ∧ length (AlarmsTab.alarmsRef
              (AlarmsTab.handleNewAlarm JNull JNull env2 unidentified_alarm
                 (AlarmsTab.handleNewAlarm JNull JNull env1 unidentified_alarm empty_tab)))
    = 2%nat
  ∧ length (AlarmNotification.alarmsRef
              (AlarmNotification.processAlarm env2 repeated_alarm
                 (AlarmNotification.processAlarm env1 repeated_alarm empty_menu)))
    = 1%nat.
Proof. cbn zeta. repeat split; by vm_compute. Qed.

(** The lookup by id also takes two different alarms without id for one: the
    second is dropped, since the record of the first has the empty [AlarmId]
    that the lookup falls back to. *)
Example addAlarmToCache_drops_other_alarm :
  identity_fields <$>
    SocketService.addAlarmToCache env2 alarm_io_106
      (SocketService.addAlarmToCache env1 alarm_io_108 [])
  = [ (JStr "", JStr "IO_ALR_108", JStr "", JStr "2025-05-16T10:00:00.100Z") ].
Proof. by vm_compute. Qed.

Lemma get_formattedAlarm_id e alarmId a :
  JS.get (SocketService.formattedAlarm e alarmId a) "_id" = alarmId ||| JS.fresh_id "alarm" e.
Proof.
  unfold SocketService.formattedAlarm, JS.get. cbn [list_to_map foldr].
  by rewrite lookup_insert_eq.
Qed.

Lemma findIndex_nonneg {A} (p : A → bool) (l : list A) :
  (0 <=? JS.findIndex p l) = existsb p l.
Proof.
  induction l as [|x l IH]; [done|]. cbn. destruct (p x); [done|]. cbn.
  rewrite <- IH. destruct (JS.findIndex p l <? 0) eqn:Hlt.
  - apply Z.ltb_lt in Hlt. symmetry. apply Z.leb_gt. lia.
  - apply Z.ltb_ge in Hlt. transitivity true; [apply Z.leb_le; lia | symmetry; by apply Z.leb_le].
Qed.

(** X1 (repeated alarm with an id).  The merge of the socket service absorbs
    a repeated alarm that carries an id: an alarm with an id under [id],
    [_id] or [AlarmId] is stored once, and every later delivery of it is a
    no-op, on every cached list. *)
Lemma addAlarmToCache_idempotent (e1 e2 : JS.Env) (a : JsObj) (l : list JsObj) :
  JS.truthy (JS.get a "id" ||| JS.get a "_id" ||| JS.get a "AlarmId" ||| JStr "") = true →
  SocketService.addAlarmToCache e2 a (SocketService.addAlarmToCache e1 a l)
  = SocketService.addAlarmToCache e1 a l.
Proof.
  intros Hid. unfold SocketService.addAlarmToCache.
  set (alarmId := JS.get a "id" ||| JS.get a "_id" ||| JS.get a "AlarmId" ||| JStr "") in *.
  rewrite !findIndex_nonneg.
  destruct (existsb (SocketService.matches alarmId a) l) eqn:Hex.
  - by rewrite Hex.
  - cbn [existsb]. unfold SocketService.matches at 1.
    rewrite get_formattedAlarm_id. unfold JS.or at 1. rewrite Hid.
    unfold JS.strict_eq at 1. by rewrite bool_decide_eq_true_2.
Qed.

Lemma addAlarmToCache_idempotent_witness :
  SocketService.addAlarmToCache env2 older_alarm
    (SocketService.addAlarmToCache env1 older_alarm loaded_alarms)
  = SocketService.addAlarmToCache env1 older_alarm loaded_alarms.
Proof. apply addAlarmToCache_idempotent. by vm_compute. Defined.


Lemma insert_desc_perm {A} (key : A → option Z) (x : A) (l : list A) :
  JS.insert_desc key x l ≡ₚ x :: l.
Proof.
  induction l as [|y l IH]; [done|]. cbn.
  destruct (JS.cmp_desc (key x) (key y) <=? 0); [done|].
  rewrite IH. apply Permutation_swap.
Qed.

Lemma sort_desc_perm {A} (key : A → option Z) (l : list A) : JS.sort_desc key l ≡ₚ l.
Proof.
  induction l as [|x l IH]; [done|].
  change (JS.sort_desc key (x :: l)) with (JS.insert_desc key x (JS.sort_desc key l)).
  rewrite insert_desc_perm. by constructor.
Qed.








(** C2 (newest first).  The merge of the socket service does not keep it: on a
    cache that the initial load filled, newest first, an alarm that is older
    than both cached records is put in front of them, and the cache is no
    longer newest first.  The merge of the alarms tab sorts the same alarm
    behind the two records. *)
Theorem addAlarmToCache_breaks_order :
  let cached := SocketService.alarmData
                  (SocketService.cacheAlarmData env1 loaded_alarms SocketService.empty_cache) in
  let merged := SocketService.addAlarmToCache env2 older_alarm cached in
  newest_first cached
  ∧ AlarmsTab.createdTime <$> merged
    = [Some 1747386000000; Some 1747389600000; Some 1747387800000]
  ∧ ¬ newest_first merged
  ∧ AlarmsTab.createdTime <$>
      AlarmsTab.alarmsRef (AlarmsTab.handleNewAlarm JNull JNull env2 older_alarm loaded_tab)
    = [Some 1747389600000; Some 1747387800000; Some 1747386000000].
Proof.
  cbn zeta. split; [|split; [|split]].
  - unfold newest_first. cbn [SocketService.cacheAlarmData loaded_alarms SocketService.alarmData].
    repeat constructor; by vm_compute.
  - by vm_compute.
  - intros Hs. unfold newest_first in Hs.
    assert (Ht : AlarmsTab.createdTime <$>
                   SocketService.addAlarmToCache env2 older_alarm
                     (SocketService.alarmData
                        (SocketService.cacheAlarmData env1 loaded_alarms
                           SocketService.empty_cache))
                 = [Some 1747386000000; Some 1747389600000; Some 1747387800000])
      by (by vm_compute).
    destruct (SocketService.addAlarmToCache _ _ _) as [|x [|y l]]; try discriminate.
    injection Ht as Hx Hy _. apply StronglySorted_inv in Hs as [_ Hxy].
    apply Forall_cons in Hxy as [Hxy _]. unfold not_before in Hxy.
    rewrite Hx, Hy in Hxy. lia.
  - by vm_compute.
Qed.

(** *** The normalizers *)

(** C8 (casing of the field names).  The transformation of the fallback alarm
    routes does not keep it: two documents that differ in nothing but
    [AlarmCode] against [alarmCode] come out with different [AlarmId], the
    code in one and the empty string in the other. *)
Theorem transformAlarmDocument_depends_on_casing :
  doc_lower = rename "AlarmCode" "alarmCode" doc_upper
  ∧ JS.get (Server.transformAlarmDocument env1 doc_upper) "AlarmId" = JStr "IO_ALR_108"
  ∧ JS.get (Server.transformAlarmDocument env1 doc_lower) "AlarmId" = JStr ""
  ∧ Server.transformAlarmDocument env1 doc_upper ≠ Server.transformAlarmDocument env1 doc_lower.
Proof.
  split; [by_compute|]. split; [by vm_compute|]. split; [by vm_compute|].
  intros H. apply (f_equal (λ o, JS.get o "AlarmId")) in H. vm_compute in H. discriminate.
Qed.

Lemma rename_same (k : string) (o : JsObj) : rename k k o = o.
Proof.
  unfold rename. destruct (o !! k) as [v|] eqn:Hv; [|done].
  rewrite insert_delete_eq. by apply insert_id.
Qed.

Section rename_lookup.
Context (k k' : string) (o : JsObj) (Hk : is_Some (o !! k)) (Hne : k ≠ k').

Lemma get_rename_new : JS.get (rename k k' o) k' = JS.get o k.
Proof. destruct Hk as [v Hv]. unfold rename, JS.get. by rewrite Hv, lookup_insert_eq. Qed.

Lemma get_rename_old : JS.get (rename k k' o) k = JUndefined.
Proof.
  destruct Hk as [v Hv]. unfold rename, JS.get.
  by rewrite Hv, lookup_insert_ne, lookup_delete_eq.
Qed.

Lemma get_rename_other (x : string) :
  x ≠ k → x ≠ k' → JS.get (rename k k' o) x = JS.get o x.
Proof.
  intros Hx Hx'. destruct Hk as [v Hv]. unfold rename, JS.get.
  by rewrite Hv, lookup_insert_ne, lookup_delete_ne.
Qed.

End rename_lookup.

Lemma get_absent (o : JsObj) (k : string) : o !! k = None → JS.get o k = JUndefined.
Proof. unfold JS.get. by intros ->. Qed.

Ltac absent_aliases Habs :=
  match type of Habs with
  | ∀ a, a ∈ ?l → _ =>
      let rec go l :=
        lazymatch l with
        | ?a :: ?l' =>
            try (let H := fresh "Ha" in
                 assert (H : JS.get _ a = JUndefined)
                   by (apply (Habs a); [in_list | discriminate]);
                 rewrite ?H);
            go l'
        | _ => idtac
        end in
      go l
  end.

(** X4 (spellings of a field).  The normalizer of the alarm controller does
    not depend on the spelling of a field: an object in which one spelling of
    a field carries the value gives the same record under any other spelling
    of that field. *)
Lemma normalizeAlarmObject_alias_invariant
    (e : JS.Env) (ctx : JsVal) (o : JsObj) (cls : list string) (k k' : string) :
  cls ∈ alias_classes → k ∈ cls → k' ∈ cls → carried_by cls k o →
  AlarmController.normalizeAlarmObject e (rename k k' o) ctx
  = AlarmController.normalizeAlarmObject e o ctx.
Proof.
  intros Hcls Hk Hk' Hc.
  destruct (decide (k = k')) as [->|Hne]; [by rewrite rename_same|].
  destruct (o !! k) as [v|] eqn:Hv; [|unfold rename; by rewrite Hv].
  assert (Hsome : is_Some (o !! k)) by (by eexists). clear Hv.
  assert (Habs : ∀ a, a ∈ cls → a ≠ k → JS.get o a = JUndefined).
  { intros a Ha Hak. apply get_absent. by apply Hc. }
  clear Hc. unfold AlarmController.normalizeAlarmObject.
  unfold alias_classes in Hcls.
  repeat (apply elem_of_cons in Hcls as [->|Hcls]); [..|by apply elem_of_nil in Hcls].
  all: repeat (apply elem_of_cons in Hk as [->|Hk]); [..|by apply elem_of_nil in Hk].
  all: repeat (apply elem_of_cons in Hk' as [->|Hk']); [..|by apply elem_of_nil in Hk'].
  all: try done.
  all: rewrite ?(get_rename_new _ _ o Hsome), ?(get_rename_old _ _ o Hsome Hne).
  all: rewrite !(get_rename_other _ _ o Hsome) by discriminate.
  all: absent_aliases Habs.
  all: match goal with
       | Hs : is_Some (?m !! ?k) |- _ =>
           generalize (JS.get m k); intros g; destruct (JS.truthy g) eqn:Ht;
           unfold JS.or; cbn [JS.truthy JS.defined_or]; rewrite ?Ht;
           cbn [JS.truthy]; rewrite ?Ht; try reflexivity
       end.
Qed.

Lemma normalizeAlarmObject_alias_invariant_witness :
  AlarmController.normalizeAlarmObject env1 (rename "AlarmCode" "alarmCode" doc_upper) JNull
  = AlarmController.normalizeAlarmObject env1 doc_upper JNull.
Proof.
  apply (normalizeAlarmObject_alias_invariant env1 JNull doc_upper ["AlarmCode"; "alarmCode"]).
  - unfold alias_classes. in_list.
  - in_list.
  - in_list.
  - intros k' Hk' Hne. repeat (apply elem_of_cons in Hk' as [->|Hk']); try done.
    by apply elem_of_nil in Hk'.
Defined.

(** *** The alarm service of the client *)

Lemma retry_from_unavailable apiCall attempt remaining :
  AlarmService.unavailable apiCall →
  ∃ error, AlarmService.retry_from apiCall attempt remaining = inr error.
Proof.
  intros Hdown. revert attempt. induction remaining as [|r IH]; intros attempt; cbn;
    destruct (Hdown attempt) as [err ->];
    destruct (negb (AlarmService.isServerError err) && negb (AlarmService.isNetworkError err));
    eauto.
Qed.

Lemma service_down_unavailable : AlarmService.unavailable service_down.
Proof. intros attempt. by eexists. Qed.

(** Against C9 as it is written: the caller of a bulk load gets the same
    value, the empty list, from a backing service that is down as from one
    that answers with no alarms; no failure reaches it. *)
Lemma failure_not_distinguished :
  AlarmService.unavailable service_down
  ∧ (∃ response, AlarmService.apiCallWithRetry service_empty = inl response)
  ∧ AlarmService.getAllAlarms service_down = AlarmService.getAllAlarms service_empty
  ∧ AlarmService.getAlarmsByDevice (JStr "esp32_04") service_down
    = AlarmService.getAlarmsByDevice (JStr "esp32_04") service_empty.
Proof.
  split; [apply service_down_unavailable|]. split; [by eexists|]. done.
Qed.

(** C9, amended (backing service unavailable).  When every attempt of the
    request fails, none of the four operations raises: the bulk loads
    [getAllAlarms] and [getAlarmsByDevice] return the empty list and the read
    marks [markAlarmAsRead] and [markAllAlarmsAsRead] return [false]. *)
Theorem unavailable_service_defaults (apiCall : AlarmService.ApiCall) (id : JsVal) :
  AlarmService.unavailable apiCall →
  AlarmService.getAllAlarms apiCall = []
  ∧ AlarmService.getAlarmsByDevice id apiCall = []
  ∧ AlarmService.markAlarmAsRead id apiCall = false
  ∧ AlarmService.markAllAlarmsAsRead apiCall = false.
Proof.
  intros Hdown. destruct (retry_from_unavailable apiCall 0 2 Hdown) as [err Herr].
  unfold AlarmService.getAllAlarms, AlarmService.getAlarmsByDevice,
    AlarmService.markAlarmAsRead, AlarmService.markAllAlarmsAsRead,
    AlarmService.apiCallWithRetry.
  rewrite Herr. by destruct (negb (JS.truthy id)).
Qed.

Lemma unavailable_service_defaults_witness :
  AlarmService.unavailable service_down
  ∧ AlarmService.getAllAlarms service_down = []
  ∧ AlarmService.markAlarmAsRead (JStr "a") service_down = false.
Proof.
  pose proof (unavailable_service_defaults service_down (JStr "a") service_down_unavailable)
    as (H1 & _ & H3 & _).
  exact (conj service_down_unavailable (conj H1 H3)).
Defined.

(** ** Further properties of the code *)

(** *** Values and object literals *)

Lemma or_truthy_l (a b : JsVal) : JS.truthy a = true → a ||| b = a.
Proof. unfold JS.or. by intros ->. Qed.

Lemma or_falsy_l (a b : JsVal) : JS.truthy a = false → a ||| b = b.
Proof. unfold JS.or. by intros ->. Qed.

Lemma truthy_or_r (a b : JsVal) : JS.truthy b = true → JS.truthy (a ||| b) = true.
Proof. intros Hb. unfold JS.or. by destruct (JS.truthy a) eqn:Ha. Qed.

Lemma or_skip_undefined (r z : JsVal) : (r ||| JUndefined) ||| z = r ||| z.
Proof. unfold JS.or. by destruct (JS.truthy r) eqn:Hr; cbn; rewrite ?Hr. Qed.

Lemma fresh_id_truthy (prefix : string) (e : JS.Env) : JS.truthy (JS.fresh_id prefix e) = true.
Proof.
  unfold JS.fresh_id. cbn. apply negb_true_iff, bool_decide_eq_false.
  destruct prefix; discriminate.
Qed.

Lemma get_list_to_map (l : list (string * JsVal)) (k : string) :
  JS.get (list_to_map l) k = JS.entry k l.
Proof.
  induction l as [|[k' v] l IH]; [done|]. cbn [JS.entry]. rewrite <- IH.
  unfold JS.get. cbn [list_to_map foldr].
  destruct (String.eqb_spec k' k) as [->|Hne].
  - by rewrite lookup_insert_eq.
  - by rewrite lookup_insert_ne.
Qed.

(** The fields of an object literal, read off its entries. *)
Ltac get_fields := rewrite ?get_list_to_map; cbn [JS.entry String.eqb Ascii.eqb Bool.eqb].

Lemma insert_list_to_map_app
    (pre : list (string * JsVal)) (k : string) (x y : JsVal) (post : list (string * JsVal)) :
  k ∉ pre.*1 →
  <[k := x]> (list_to_map (pre ++ (k, y) :: post) : JsObj) = list_to_map (pre ++ (k, x) :: post).
Proof.
  induction pre as [|[k' v] pre IH]; cbn.
  - intros _. by rewrite insert_insert_eq.
  - intros [Hk Hpre]%not_elem_of_cons. rewrite insert_insert_ne by done. by rewrite IH.
Qed.

(** *** The event bus *)

Lemma remove_first_snoc (cb : Cb) (l : list Cb) :
  cb ∉ l → remove_first cb (l ++ [cb]) = l.
Proof.
  induction l as [|x l IH]; cbn.
  - intros _. by rewrite bool_decide_eq_true_2.
  - intros [Hx Hl]%not_elem_of_cons. rewrite bool_decide_eq_false_2 by done.
    by rewrite IH.
Qed.

Lemma remove_first_perm (cb : Cb) (l : list Cb) :
  cb ∈ l → cb :: remove_first cb l ≡ₚ l.
Proof.
  induction l as [|x l IH]; [by intros ?%elem_of_nil|].
  cbn. case_bool_decide as Hx; [by subst|].
  intros [?|Hin]%elem_of_cons; [done|].
  rewrite Permutation_swap. by rewrite IH.
Qed.

Lemma emit_on (event ev : string) (cb : Cb) (data : JsObj) (bus : EventBus.Bus) :
  EventBus.emit ev data (EventBus.on event cb bus)
  = EventBus.emit ev data bus ++ (if bool_decide (ev = event) then [Call cb data] else []).
Proof.
  unfold EventBus.emit, EventBus.on, EventBus.Bus in *. case_bool_decide as He.
  - subst ev. rewrite lookup_insert_eq. destruct (bus !! event); cbn; [|done].
    by rewrite fmap_app.
  - rewrite lookup_insert_ne by done. by rewrite app_nil_r.
Qed.

(** X5 (subscribing to the bus).  After [on(event, callback)] an [emit] of
    that event invokes the callbacks that it invoked before, in their order,
    and then the new callback once, all with the emitted data; an [emit] of
    any other event is as before; and an event without subscriber invokes
    nothing. *)
Theorem emit_after_on (event : string) (cb : Cb) (data : JsObj) (bus : EventBus.Bus) :
  EventBus.emit event data (EventBus.on event cb bus)
  = EventBus.emit event data bus ++ [Call cb data]
  ∧ (∀ ev, ev ≠ event →
       EventBus.emit ev data (EventBus.on event cb bus) = EventBus.emit ev data bus)
  ∧ (bus !! event = None → EventBus.emit event data bus = []).
Proof.
  split; [|split].
  - by rewrite emit_on, bool_decide_eq_true_2.
  - intros ev Hne. by rewrite emit_on, bool_decide_eq_false_2, app_nil_r.
  - intros Hn. unfold EventBus.emit. by rewrite Hn.
Qed.

(** X6 (unsubscribing from the bus).  Running the unsubscribe function that
    [on(event, callback)] returned undoes the subscription: every event then
    invokes the same callbacks as before the subscription, as many times
    each; they come in the same order when the callback was not subscribed
    to the event before (otherwise its earliest subscription is the one that
    goes). *)
Theorem unsubscribe_after_on (event ev : string) (cb : Cb) (data : JsObj)
    (bus : EventBus.Bus) :
  let bus' := EventBus.off event cb (EventBus.on event cb bus) in
  EventBus.emit ev data bus' ≡ₚ EventBus.emit ev data bus
  ∧ (cb ∉ default [] (bus !! event) →
       EventBus.emit ev data bus' = EventBus.emit ev data bus).
Proof.
  cbn zeta. unfold EventBus.off, EventBus.on, EventBus.emit, EventBus.Bus in *.
  rewrite lookup_insert_eq.
  destruct (decide (ev = event)) as [->|Hne].
  - rewrite lookup_insert_eq. split.
    + assert (Hin : cb ∈ default [] (bus !! event) ++ [cb]).
      { apply elem_of_app. right. by left. }
      apply remove_first_perm in Hin.
      apply (fmap_Permutation (λ c, Call c data)) in Hin.
      rewrite fmap_cons, fmap_app in Hin. cbn in Hin.
      assert (H2 : Call cb data :: ((λ c, Call c data) <$>
                     remove_first cb (default [] (bus !! event) ++ [cb]))
                   ≡ₚ Call cb data :: ((λ c, Call c data) <$> default [] (bus !! event))).
      { etrans; [exact Hin|]. symmetry. apply Permutation_cons_append. }
      apply Permutation_cons_inv in H2. etrans; [exact H2|].
      by destruct (bus !! event).
    + intros Hn. rewrite remove_first_snoc by done. by destruct (bus !! event).
  - rewrite !lookup_insert_ne by done. done.
Qed.

Lemma dispatch_calls (bus : EventBus.Bus) (data : JsObj) (l : list Cb) :
  EventBus.dispatch bus ((λ cb, Call cb data) <$> l) = [].
Proof. unfold EventBus.dispatch. induction l as [|x l IH]; [done|]. cbn. exact IH. Qed.

Lemma receive_alarm_like_effects
    (e : JS.Env) (event : string) (h : Handler) (data : JsObj) (st : Service) (s : Socket) :
  socket st = Some s → handlers_for event s = [h] → alarm_like event h →
  let data' := stamp e (<["_receivedAt" := JNum (JS.now e)]> data) in
  effects_of (receive e event data) st
  = BusEmit "new-alarm" data' :: ((λ cb, Call cb data') <$> default [] (listeners st !! event)).
Proof.
  intros Hs Hh Hk. cbn zeta. unfold effects_of, receive, bind, read. rewrite Hs, Hh.
  destruct Hk as [[-> ->]|[-> ->]]; cbn; by rewrite !app_nil_r.
Qed.

(** X7 (from the socket to the bus).  When the handler of [onAlarm] (or of
    [onAlarmNotification]) stands on the socket, one inbound event of its kind
    is put on the bus exactly once, as [new-alarm]: every subscriber of
    [new-alarm] is invoked once for each of its subscriptions, with the
    payload as the handler stamped it, and no other subscriber of the bus is
    invoked. *)
Theorem alarm_reaches_bus_once
    (e : JS.Env) (event : string) (h : Handler) (data : JsObj) (st : Service) (s : Socket)
    (bus : EventBus.Bus) :
  socket st = Some s → handlers_for event s = [h] → alarm_like event h →
  let data' := stamp e (<["_receivedAt" := JNum (JS.now e)]> data) in
  EventBus.dispatch bus (effects_of (receive e event data) st)
  = (λ cb, Call cb data') <$> default [] (bus !! "new-alarm").
Proof.
  intros Hs Hh Hk. cbn zeta. rewrite (receive_alarm_like_effects e event h data st s) by done.
  change (EventBus.dispatch bus (?x :: ?l))
    with (EventBus.emit "new-alarm" (stamp e (<["_receivedAt" := JNum (JS.now e)]> data)) bus
          ++ EventBus.dispatch bus l).
  rewrite dispatch_calls, app_nil_r. unfold EventBus.emit.
  by destruct (bus !! "new-alarm").
Qed.

Lemma alarm_reaches_bus_once_witness :
  calls (EventBus.dispatch (EventBus.on "new-alarm" 5%nat ∅)
           (effects_of (receive env2 "alarm" alarm_io_108)
              (state_after (onAlarm env1 7%nat) connected_service)))
  = [5%nat].
Proof.
  assert (Hs : socket (state_after (onAlarm env1 7%nat) connected_service)
               = Some {| sock_connected := true; handlers := [("alarm", HAlarm)] |})
    by (by vm_compute).
  rewrite (alarm_reaches_bus_once env2 "alarm" HAlarm alarm_io_108 _ _
             (EventBus.on "new-alarm" 5%nat ∅) Hs); [by vm_compute|by vm_compute|by left].
Defined.

(** *** The caches of the socket service *)

Lemma get_formattedNotification_id e notificationId n :
  JS.get (formattedNotification e notificationId n) "_id"
  = notificationId ||| JS.fresh_id "notification" e.
Proof. unfold formattedNotification. by get_fields. Qed.

(** X8 (repeated notification with an id).  The notification cache absorbs a
    repeated notification: one that carries an id under [id], [_id] or
    [NotificationId] is stored once, and every later delivery of it is a
    no-op, on every cached list. *)
Theorem addNotificationToCache_idempotent (e1 e2 : JS.Env) (n : JsObj) (l : list JsObj) :
  JS.truthy (JS.get n "id" ||| JS.get n "_id" ||| JS.get n "NotificationId" ||| JStr "") = true →
  addNotificationToCache e2 n (addNotificationToCache e1 n l) = addNotificationToCache e1 n l.
Proof.
  intros Hid. unfold addNotificationToCache.
  set (notificationId := JS.get n "id" ||| JS.get n "_id" ||| JS.get n "NotificationId"
                         ||| JStr "") in *.
  rewrite !findIndex_nonneg.
  match goal with |- context [existsb ?p l] => set (known := p) end.
  destruct (existsb known l) eqn:Hex.
  - by rewrite Hex.
  - cbn [existsb]. unfold known at 1.
    rewrite get_formattedNotification_id. unfold JS.or at 1. rewrite Hid.
    unfold JS.strict_eq at 1. by rewrite bool_decide_eq_true_2.
Qed.

Lemma addNotificationToCache_idempotent_witness :
  addNotificationToCache env2 notification_1 (addNotificationToCache env1 notification_1 [])
  = addNotificationToCache env1 notification_1 [].
Proof. apply addNotificationToCache_idempotent. by vm_compute. Defined.

Lemma get_id_mark (x : JsObj) :
  JS.get (<["IsRead" := JBool true]> x) "_id" = JS.get x "_id".
Proof. unfold JS.get. by rewrite lookup_insert_ne. Qed.

(** Read marks on the notification cache compose: a second mark of the same
    id changes nothing, and the marks of two ids can go in either order. *)
Lemma markNotificationAsRead_compose (a b : JsVal) (l : list JsObj) :
  markNotificationAsRead a (markNotificationAsRead a l) = markNotificationAsRead a l
  ∧ markNotificationAsRead a (markNotificationAsRead b l)
    = markNotificationAsRead b (markNotificationAsRead a l).
Proof.
  unfold markNotificationAsRead.
  destruct (JS.truthy a), (JS.truthy b); cbn [negb]; try done; split; try done.
  - rewrite map_map. apply map_ext. intros x.
    destruct (JS.strict_eq (JS.get x "_id") a) eqn:Hx; [|by rewrite Hx].
    rewrite get_id_mark, Hx. by rewrite insert_insert_eq.
  - rewrite !map_map. apply map_ext. intros x.
    destruct (JS.strict_eq (JS.get x "_id") a) eqn:Ha,
             (JS.strict_eq (JS.get x "_id") b) eqn:Hb;
      rewrite ?get_id_mark, ?Ha, ?Hb; done.
  - rewrite map_map. apply map_ext. intros x.
    destruct (JS.strict_eq (JS.get x "_id") a) eqn:Hx; [|by rewrite Hx].
    rewrite get_id_mark, Hx. by rewrite insert_insert_eq.
Qed.

Lemma receive_alarm_like_state
    (e : JS.Env) (event : string) (h : Handler) (data : JsObj) (st : Service) (s : Socket) :
  socket st = Some s → handlers_for event s = [h] → alarm_like event h →
  state_after (receive e event data) st
  = set_cache (set_alarmData
                 (addAlarmToCache e (stamp e (<["_receivedAt" := JNum (JS.now e)]> data))
                    (alarmData (cache st)))
                 (cache st)) st.
Proof.
  intros Hs Hh Hk. unfold state_after, receive, bind, read. rewrite Hs, Hh.
  by destruct Hk as [[-> ->]|[-> ->]].
Qed.

Lemma get_stamp (e : JS.Env) (data : JsObj) (k : string) :
  k ≠ "_uniqueId" → k ≠ "_receivedAt" →
  JS.get (stamp e (<["_receivedAt" := JNum (JS.now e)]> data)) k = JS.get data k.
Proof. intros H1 H2. unfold stamp, JS.get. by rewrite !lookup_insert_ne. Qed.

Lemma lookup_id_stamp (e : JS.Env) (data : JsObj) :
  lookup_id (stamp e (<["_receivedAt" := JNum (JS.now e)]> data)) = lookup_id data.
Proof. unfold lookup_id. by rewrite !get_stamp. Qed.

Lemma addAlarmToCache_grows (e : JS.Env) (a : JsObj) (l : list JsObj) :
  addAlarmToCache e a l = l
  ∨ addAlarmToCache e a l = formattedAlarm e (lookup_id a) a :: l.
Proof. unfold addAlarmToCache. destruct (0 <=? _); [by left|by right]. Qed.

Lemma addAlarmToCache_known (e : JS.Env) (a : JsObj) (l : list JsObj) :
  existsb (λ r, JS.strict_eq (JS.get r "_id") (lookup_id a)
                || JS.strict_eq (JS.get r "AlarmId") (lookup_id a)) l = true →
  addAlarmToCache e a l = l.
Proof.
  intros Hex. unfold addAlarmToCache. rewrite findIndex_nonneg.
  fold (lookup_id a).
  assert (existsb (matches (lookup_id a) a) l = true) as ->; [|done].
  apply existsb_exists in Hex as (r & Hr & Hm). apply existsb_exists. exists r.
  split; [done|]. unfold matches. by rewrite Hm.
Qed.

Lemma addAlarmToCache_then_known (e : JS.Env) (a : JsObj) (l : list JsObj) :
  JS.truthy (lookup_id a) = true → JS.truthy (JS.get a "timestamp") = false →
  existsb (λ r, JS.strict_eq (JS.get r "_id") (lookup_id a)
                || JS.strict_eq (JS.get r "AlarmId") (lookup_id a))
    (addAlarmToCache e a l) = true.
Proof.
  intros Hid Hts. unfold addAlarmToCache. rewrite findIndex_nonneg. fold (lookup_id a).
  destruct (existsb (matches (lookup_id a) a) l) eqn:Hex.
  - apply existsb_exists in Hex as (r & Hr & Hm). apply existsb_exists. exists r.
    split; [done|]. unfold matches in Hm. rewrite Hts in Hm. cbn in Hm.
    by rewrite orb_false_r in Hm.
  - cbn [existsb]. rewrite get_formattedAlarm_id. rewrite or_truthy_l by done.
    unfold JS.strict_eq at 1. by rewrite bool_decide_eq_true_2.
Qed.

Lemma notificationData_id (e : JS.Env) (raw n : JsObj) :
  Server.notificationData e raw = Some n →
  lookup_id n = JS.get raw "_id" ||| JS.get raw "id" ||| JS.fresh_id "alarm" e.
Proof.
  unfold Server.notificationData. intros Hn.
  destruct (if JS.truthy _ then _ else _) as [plantName|]; [|done].
  cbn in Hn. injection Hn as <-. unfold lookup_id. get_fields.
  set (id := _ ||| _ ||| JS.fresh_id "alarm" e).
  assert (Hid : JS.truthy id = true) by apply truthy_or_r, fresh_id_truthy.
  by rewrite !(or_truthy_l id _ Hid).
Qed.

(** X9 (an alarm and the notification that the server makes of it).  The
    server sends an alarm as an [alarm] event and, after a delay, as an
    [alarm_notification] built by [notificationData].  When the alarm carries
    one id, under [_id] or [id] (the same under both if it has both), and no
    [timestamp], the cache of the client that has both handlers on its socket
    holds no second record for the notification: the notification leaves the
    cached list as the alarm left it, and the alarm added at most one
    record. *)
Theorem notification_after_alarm_absorbed
    (e e1 e2 : JS.Env) (raw n : JsObj) (st : Service) (s : Socket) :
  socket st = Some s →
  handlers_for "alarm" s = [HAlarm] →
  handlers_for "alarm_notification" s = [HAlarmNotification] →
  Server.notificationData e raw = Some n →
  JS.truthy (JS.get raw "id" ||| JS.get raw "_id") = true →
  JS.get raw "id" ||| JS.get raw "_id" = JS.get raw "_id" ||| JS.get raw "id" →
  JS.truthy (JS.get raw "timestamp") = false →
  let st1 := state_after (receive e1 "alarm" raw) st in
  let st2 := state_after (receive e2 "alarm_notification" n) st1 in
  alarmData (cache st2) = alarmData (cache st1)
  ∧ (length (alarmData (cache st1)) ≤ S (length (alarmData (cache st))))%nat.
Proof.
  intros Hs Ha Hn Hnd Hid Hsym Hts. cbn zeta.
  rewrite (receive_alarm_like_state e1 "alarm" HAlarm raw st s Hs Ha) by (by left).
  rewrite (receive_alarm_like_state e2 "alarm_notification" HAlarmNotification n _ s)
    by (done || by right).
  cbn [cache set_cache alarmData set_alarmData].
  set (raw' := stamp e1 _). set (n' := stamp e2 _).
  assert (Hraw : lookup_id raw' = JS.get raw "id" ||| JS.get raw "_id").
  { unfold raw'. rewrite lookup_id_stamp. unfold lookup_id.
    by rewrite !(or_truthy_l (JS.get raw "id" ||| JS.get raw "_id")). }
  assert (Hn' : lookup_id n' = lookup_id raw').
  { unfold n'. rewrite lookup_id_stamp, (notificationData_id e raw n Hnd), Hraw, Hsym.
    apply or_truthy_l. by rewrite <- Hsym. }
  split.
  - apply addAlarmToCache_known. rewrite Hn'. apply addAlarmToCache_then_known.
    + by rewrite Hraw.
    + unfold raw'. by rewrite get_stamp.
  - destruct (addAlarmToCache_grows e1 raw' (alarmData (cache st))) as [-> | ->]; cbn; lia.
Qed.

Lemma notification_after_alarm_absorbed_witness :
  let st := state_after (onAlarmNotification env1 8%nat)
              (state_after (onAlarm env1 7%nat) connected_service) in
  let n := default ∅ (Server.notificationData env1 doc_upper) in
  let st1 := state_after (receive env1 "alarm" doc_upper) st in
  let st2 := state_after (receive env2 "alarm_notification" n) st1 in
  alarmData (cache st2) = alarmData (cache st1)
  ∧ (length (alarmData (cache st1)) ≤ S (length (alarmData (cache st))))%nat.
Proof.
  cbn zeta.
  apply (notification_after_alarm_absorbed env1 env1 env2 doc_upper _ _
           {| sock_connected := true;
              handlers := [("alarm", HAlarm); ("alarm_notification", HAlarmNotification)] |});
    try (vm_compute; reflexivity).
Defined.

(** *** Connection, subscriptions and callbacks of the socket service *)

Lemma connect_socket (st : Service) :
  socket (state_after connect st) = Some {| sock_connected := false; handlers := [] |}
  ∧ listeners (state_after connect st) = listeners st
  ∧ activeListeners (state_after connect st) = activeListeners st.
Proof.
  unfold state_after, connect, modify. cbn.
  by destruct (socket st) as [[[] ?]|].
Qed.

Lemma onNotification_active (cb : Cb) (st : Service) :
  is_Some (activeListeners st !! "notification") →
  socket (state_after (onNotification cb) st) = socket st
  ∧ listeners (state_after (onNotification cb) st) !! "notification"
    = Some (default [] (listeners st !! "notification") ++ [cb]).
Proof.
  intros [a Ha]. unfold_ops.
  destruct (listeners st !! "notification") as [l|] eqn:Hl;
    destruct (socket st) as [s|] eqn:Hs; destruct (connected st) eqn:Hc;
    repeat (progress (cbn; rewrite ?Hl, ?Ha, ?Hs, ?Hc));
    by rewrite ?lookup_insert_eq.
Qed.

(** X10 (a new socket has no handlers).  [connect()] replaces the socket by a
    new one, on which no event handler stands.  Once the notification
    listener has been set up, [onNotification] after a [connect()] records
    the callback but puts no handler on the new socket (the service still has
    the listener marked as active): an inbound notification then invokes no
    callback and is not cached.  [onAlarm] after a [connect()] does install
    its handler: an inbound alarm invokes the callback once. *)
Theorem reconnect_loses_notification_handler
    (e e' : JS.Env) (cb : Cb) (data : JsObj) (st : Service) :
  is_Some (activeListeners st !! "notification") →
  let renewed := state_after (connect >> onNotification cb) st in
  effects_of (receive e' "notification" data) renewed = []
  ∧ state_after (receive e' "notification" data) renewed = renewed
  ∧ cb ∈ default [] (listeners renewed !! "notification")
  ∧ calls (effects_of (receive e' "alarm" data) (state_after (connect >> onAlarm e cb) st))
    = [cb].
Proof.
  intros Ha. cbn zeta. rewrite !state_after_bind.
  destruct (connect_socket st) as (Hs & Hl & Hact).
  set (st1 := state_after connect st) in *. clearbody st1. rewrite <- Hact in Ha.
  destruct (onNotification_active cb st1 Ha) as [Hs' Hl'].
  split; [|split; [|split]].
  - unfold effects_of, receive, bind, read. by rewrite Hs', Hs.
  - unfold state_after at 1, receive, bind, read. by rewrite Hs', Hs.
  - rewrite Hl'. cbn. apply elem_of_app. right. by left.
  - assert (Hsome : is_Some (socket st1)) by (rewrite Hs; by eexists).
    destruct (onAlarmLike_registered e "alarm" HAlarm cb st1 Hsome)
      as ((s' & Hs2 & Hh) & Hlist & _).
    unfold onAlarm.
    rewrite (receive_alarm_like e' "alarm" HAlarm data _ s' Hs2 Hh) by (by left).
    by rewrite Hlist.
Qed.

Lemma reconnect_loses_notification_handler_witness :
  let st := state_after (onNotification 7%nat) connected_service in
  effects_of (receive env2 "notification" notification_1)
    (state_after (connect >> onNotification 8%nat) st) = [].
Proof.
  cbn zeta.
  assert (Ha : is_Some (activeListeners (state_after (onNotification 7%nat) connected_service)
                          !! "notification")) by (vm_compute; by eexists).
  exact (proj1 (reconnect_loses_notification_handler env1 env2 8%nat notification_1 _ Ha)).
Defined.

Lemma unsubscribe_connected (r : Request) (st : Service) :
  valid_request r → is_Some (socket st) → connected st = true →
  state_after (unsubscribe r) st
  = set_pending (set_delete (request_key r) (pendingSubscriptions st)) st
  ∧ effects_of (unsubscribe r) st = [unsubscribed r].
Proof.
  intros Hv Hs Hc.
  destruct r as [d|p]; cbn [valid_request request_key unsubscribe unsubscribed] in *.
  - destruct Hv as [Hne _].
    unfold state_after, effects_of, unsubscribeFromDevice, bind, read, tell, modify. cbn.
    rewrite (bool_decide_eq_false_2 (d = "")) by done.
    rewrite (bool_decide_eq_true_2 _ Hs), Hc. by cbn.
  - unfold state_after, effects_of, unsubscribeFromPlant, bind, read, tell, modify. cbn.
    assert (negb (JS.truthy p) && negb (JS.strict_eq p (JNum 0)) = false) as ->.
    { destruct Hv as [->| ->]; [done|]. by rewrite andb_comm. }
    rewrite (bool_decide_eq_true_2 _ Hs), Hc. by cbn.
Qed.

Lemma unsubscribe_disconnected (r : Request) (st : Service) :
  disconnected st →
  state_after (unsubscribe r) st = st ∧ effects_of (unsubscribe r) st = [].
Proof.
  intros Hd.
  assert (Hdis : negb (bool_decide (is_Some (socket st))) || negb (connected st) = true).
  { destruct Hd as [-> | ->]; [done|]. by rewrite orb_true_r. }
  destruct r as [d|p]; cbn [unsubscribe].
  - unfold state_after, effects_of, unsubscribeFromDevice, bind, read. cbn.
    rewrite <- orb_assoc, Hdis, orb_true_r. done.
  - unfold state_after, effects_of, unsubscribeFromPlant, bind, read. cbn.
    rewrite <- orb_assoc, Hdis, orb_true_r. done.
Qed.

(** X11 (leaving a room).  On a connected service, [unsubscribeFromDevice] or
    [unsubscribeFromPlant] sends one unsubscribe message and takes the entry
    of the room, and no other entry, out of the pending set, so that the next
    connection does not subscribe to it again.  While the channel is down the
    call does nothing: it sends nothing and the entry stays in the set. *)
Theorem unsubscribe_leaves_pending_set (r : Request) (st : Service) :
  valid_request r →
  let st' := state_after (unsubscribe r) st in
  (is_Some (socket st) → connected st = true →
     effects_of (unsubscribe r) st = [unsubscribed r]
     ∧ (request_key r ∉ pendingSubscriptions st')
     ∧ (∀ sub, sub ≠ request_key r →
          (sub ∈ pendingSubscriptions st' ↔ sub ∈ pendingSubscriptions st)))
  ∧ (disconnected st → st' = st ∧ effects_of (unsubscribe r) st = []).
Proof.
  intros Hv. cbn zeta. split.
  - intros Hs Hc. destruct (unsubscribe_connected r st Hv Hs Hc) as [-> ->].
    cbn [pendingSubscriptions set_pending]. unfold set_delete.
    split; [done|]. split.
    + intros [Hne _]%list_elem_of_filter. done.
    + intros sub Hne. rewrite list_elem_of_filter. split; [by intros [_ ?]|by split].
  - apply unsubscribe_disconnected.
Qed.

Lemma unsubscribe_leaves_pending_set_witness :
  let st := state_after (subscribe (ReqDevice "esp32_01")) connected_service in
  "esp32_01" ∈ pendingSubscriptions st
  ∧ "esp32_01" ∉ pendingSubscriptions (state_after (unsubscribe (ReqDevice "esp32_01")) st).
Proof.
  cbn zeta. split; [by vm_compute; left|].
  assert (Hv : valid_request (ReqDevice "esp32_01")) by (by split).
  refine (proj1 (proj2 (proj1
    (unsubscribe_leaves_pending_set (ReqDevice "esp32_01") _ Hv) _ _)));
    [by eexists|reflexivity].
Defined.

(** Operations that leave the connection callbacks alone. *)
Section keeps.
Context {A B : Type}.

Lemma keeps_ret (x : A) : keeps_callbacks (ret x).
Proof. intros st. by split. Qed.

Lemma keeps_read : keeps_callbacks read.
Proof. intros st. by split. Qed.

Lemma keeps_tell (out : list Effect) : Forall no_connect_call out → keeps_callbacks (tell out).
Proof. intros Ho st. by split. Qed.

Lemma keeps_modify (f : Service → Service) :
  (∀ st, connectionCallbacks (f st) = connectionCallbacks st) → keeps_callbacks (modify f).
Proof. intros Hf st. split; [apply Hf|constructor]. Qed.

Lemma keeps_bind (m : M A) (k : A → M B) :
  keeps_callbacks m → (∀ x, keeps_callbacks (k x)) → keeps_callbacks (bind m k).
Proof.
  intros Hm Hk st. rewrite state_after_bind, effects_of_bind.
  destruct (Hm st) as [Hm1 Hm2]. destruct (Hk (result_of m st) (state_after m st)) as [Hk1 Hk2].
  split; [by rewrite Hk1|by apply Forall_app].
Qed.

End keeps.

Lemma keeps_forEach {A} (f : A → M unit) (l : list A) :
  (∀ x, keeps_callbacks (f x)) → keeps_callbacks (forEach f l).
Proof.
  intros Hf. induction l as [|x l IH]; cbn [forEach]; [apply keeps_ret|].
  apply keeps_bind; [apply Hf|by intros _].
Qed.

Lemma keeps_when (b : bool) (m : M unit) : keeps_callbacks m → keeps_callbacks (when b m).
Proof. intros Hm. destruct b; [done|apply keeps_ret]. Qed.

Ltac keeps_step :=
  first
    [ apply keeps_ret | apply keeps_read
    | apply keeps_bind; [|intros ?]
    | apply keeps_when
    | apply keeps_forEach; intros ?
    | apply keeps_tell; repeat constructor; intros ?; discriminate
    | apply keeps_modify; intros ?; cbn;
      repeat (first [case_bool_decide | case_match]); reflexivity ].

Lemma keeps_connect : keeps_callbacks connect.
Proof. unfold connect. keeps_step. Qed.

Lemma keeps_off (event : string) : keeps_callbacks (off event).
Proof. unfold off. keeps_step. Qed.

Lemma keeps_on (event : string) (h : Handler) : keeps_callbacks (on event h).
Proof. unfold on. keeps_step. Qed.

Lemma keeps_push_listener (event : string) (cb : Cb) : keeps_callbacks (push_listener event cb).
Proof. unfold push_listener. keeps_step. Qed.

Lemma keeps_onAlarmLike e event h cb : keeps_callbacks (onAlarmLike e event h cb).
Proof.
  unfold onAlarmLike. apply keeps_bind; [apply keeps_read|]. intros st.
  destruct (socket st);
    repeat first [apply keeps_connect | apply keeps_off | apply keeps_on
                 | apply keeps_push_listener | keeps_step].
Qed.

Lemma keeps_removeAllTelemetryListeners : keeps_callbacks removeAllTelemetryListeners.
Proof.
  unfold removeAllTelemetryListeners. apply keeps_bind; [apply keeps_read|]. intros st.
  destruct (socket st); repeat first [apply keeps_off | keeps_step].
Qed.

Lemma keeps_onTelemetry cb device : keeps_callbacks (onTelemetry cb device).
Proof.
  unfold onTelemetry. apply keeps_bind; [apply keeps_read|]. intros st.
  destruct (socket st);
    repeat first [apply keeps_connect | apply keeps_on | apply keeps_push_listener
                 | apply keeps_removeAllTelemetryListeners | keeps_step].
Qed.

Lemma keeps_process_pending_listeners e : keeps_callbacks (process_pending_listeners e).
Proof.
  unfold process_pending_listeners. apply keeps_forEach. intros ev.
  apply keeps_bind; [apply keeps_read|]. intros st.
  destruct (listeners st !! _) as [[|cb cbs]|]; try apply keeps_ret.
  apply keeps_bind.
  - apply keeps_forEach. intros c. apply keeps_bind; [|intros; apply keeps_ret].
    repeat case_bool_decide; unfold onAlarm, onAlarmNotification;
      first [apply keeps_onAlarmLike | apply keeps_onTelemetry].
  - intros _. keeps_step.
Qed.

Lemma on_connect_calls (e : JS.Env) (st : Service) :
  ∃ before, effects_of (on_connect e) st = before ++ (CallConnect <$> connectionCallbacks st)
            ∧ Forall no_connect_call before.
Proof.
  assert (Hk : keeps_callbacks (mark_connected >> replay_pending
                                >> process_pending_listeners e)).
  { apply keeps_bind; [unfold mark_connected; keeps_step|]. intros _.
    apply keeps_bind; [|intros _; apply keeps_process_pending_listeners].
    unfold replay_pending. apply keeps_bind; [apply keeps_read|]. intros s.
    apply keeps_tell. apply Forall_fmap, Forall_true. intros sub cb.
    unfold resubscribe. by destruct (JS.startsWith sub "plant-"). }
  destruct (Hk st) as [Hst Hout].
  exists (effects_of (mark_connected >> replay_pending >> process_pending_listeners e) st).
  split; [|done]. rewrite <- Hst. unfold on_connect.
  rewrite !effects_of_bind, !state_after_bind, <- !app_assoc. done.
Qed.

(** X12 (connection callbacks).  [onConnect(callback)] appends the callback to
    the connection callbacks and invokes it at once exactly when the service
    is connected.  At the next connection the connect handler invokes the
    connection callbacks, each once for each of its registrations and in the
    order of registration, after everything else it does, and the pending
    subscriptions and listeners that it processes before invoke none of them.
    [removeConnectCallback] undoes the registration of a callback that was
    not registered before. *)
Theorem connection_callbacks_called (e : JS.Env) (cb : Cb) (st : Service) :
  let st1 := state_after (onConnect cb) st in
  effects_of (onConnect cb) st = (if connected st then [CallConnect cb] else [])
  ∧ (∃ before,
       effects_of (on_connect e) st1
       = before ++ (CallConnect <$> (connectionCallbacks st ++ [cb]))
       ∧ Forall no_connect_call before)
  ∧ (cb ∉ connectionCallbacks st →
       connectionCallbacks (state_after (removeConnectCallback cb) st1)
       = connectionCallbacks st).
Proof.
  cbn zeta.
  assert (Hst : connectionCallbacks (state_after (onConnect cb) st)
                = connectionCallbacks st ++ [cb]).
  { unfold state_after, onConnect, bind, modify, read, when. cbn.
    by destruct (connected st). }
  split; [|split].
  - unfold effects_of, onConnect, bind, modify, read, when, tell, ret. cbn.
    by destruct (connected st).
  - rewrite <- Hst. apply on_connect_calls.
  - intros Hn. unfold state_after at 1, removeConnectCallback, modify. cbn.
    rewrite Hst. by apply remove_first_snoc.
Qed.

(** *** The notification context *)

Lemma exists_in_self (n : JsObj) (l : list JsObj) :
  NotificationContext.exists_in n (n :: l) = true.
Proof.
  unfold NotificationContext.exists_in. cbn. unfold JS.strict_eq at 1.
  by rewrite bool_decide_eq_true_2.
Qed.

Lemma handleNewNotification_known (e : JS.Env) (n : JsObj) (st : NotificationContext.State) :
  NotificationContext.exists_in n
    (NotificationContext.notifications (NotificationContext.handleNewNotification e n st))
  = true.
Proof.
  unfold NotificationContext.handleNewNotification. cbn.
  destruct (NotificationContext.exists_in n (NotificationContext.notifications st)) eqn:Hk;
    [done|apply exists_in_self].
Qed.

Lemma handleNewNotification_count (es : list JS.Env) (n : JsObj)
    (st : NotificationContext.State) :
  NotificationContext.unreadCount
    (foldl (λ s e', NotificationContext.handleNewNotification e' n s) st es)
  = NotificationContext.unreadCount st + Z.of_nat (length es).
Proof.
  revert st. induction es as [|e' es IH]; intros st; cbn [foldl length]; [lia|].
  rewrite IH. cbn. lia.
Qed.

Lemma handleNewNotification_absorbed (es : list JS.Env) (n : JsObj)
    (st : NotificationContext.State) :
  NotificationContext.exists_in n (NotificationContext.notifications st) = true →
  NotificationContext.notifications
    (foldl (λ s e', NotificationContext.handleNewNotification e' n s) st es)
  = NotificationContext.notifications st.
Proof.
  revert st. induction es as [|e' es IH]; intros st Hk; [done|]. cbn [foldl].
  rewrite IH by apply handleNewNotification_known.
  unfold NotificationContext.handleNewNotification. cbn. by rewrite Hk.
Qed.

(** X13 (repeated notification in the context).  However often the provider
    is handed the same notification, whatever its fields are, the list of
    notifications is what one delivery made of it, which added at most one
    record; the unread counter, though, goes up by one with every delivery,
    repeated or not. *)
Theorem handleNewNotification_repeated
    (e : JS.Env) (es : list JS.Env) (n : JsObj) (st : NotificationContext.State) :
  let once := NotificationContext.handleNewNotification e n st in
  let again := foldl (λ s e', NotificationContext.handleNewNotification e' n s) once es in
  NotificationContext.notifications again = NotificationContext.notifications once
  ∧ NotificationContext.unreadCount again
    = NotificationContext.unreadCount st + 1 + Z.of_nat (length es)
  ∧ (length (NotificationContext.notifications once)
     ≤ S (length (NotificationContext.notifications st)))%nat.
Proof.
  cbn zeta. split; [|split].
  - apply handleNewNotification_absorbed, handleNewNotification_known.
  - by rewrite handleNewNotification_count.
  - unfold NotificationContext.handleNewNotification. cbn.
    destruct (NotificationContext.exists_in n _); cbn; lia.
Qed.

(** *** The alarm notification menu *)





Lemma processAlarm_length (e : JS.Env) (a : JsObj) (st : AlarmNotification.State) :
  (length (AlarmNotification.alarmsRef st) ≤ 10 →
   length (AlarmNotification.alarmsRef (AlarmNotification.processAlarm e a st)) ≤ 10)%nat.
Proof.
  intros Hl. unfold AlarmNotification.processAlarm. destruct (existsb _ _); [done|].
  cbn [AlarmNotification.alarmsRef length]. rewrite length_take. lia.
Qed.

(** X15 (the menu keeps ten alarms).  A menu that holds at most ten alarms
    holds at most ten after any sequence of alarms that [processAlarm] is
    handed: each stored alarm pushes the oldest kept one out. *)
Theorem processAlarm_bounded
    (events : list (JS.Env * JsObj)) (st : AlarmNotification.State) :
  (length (AlarmNotification.alarmsRef st) ≤ 10)%nat →
  (length (AlarmNotification.alarmsRef
             (foldl (λ s ev, AlarmNotification.processAlarm ev.1 ev.2 s) st events)) ≤ 10)%nat.
Proof.
  revert st. induction events as [|ev events IH]; intros st Hl; [done|].
  cbn [foldl]. apply IH. by apply processAlarm_length.
Qed.

Lemma processAlarm_bounded_witness :
  (length (AlarmNotification.alarmsRef
             (foldl (λ s ev, AlarmNotification.processAlarm ev.1 ev.2 s) empty_menu
                [(env1, alarm_io_108); (env2, alarm_io_106)])) ≤ 10)%nat.
Proof. apply processAlarm_bounded. cbn. lia. Defined.

(** *** The alarms tab *)




Lemma handleNewAlarm_cases
    (p d : JsVal) (e : JS.Env) (a : JsObj) (st : AlarmsTab.State) :
  AlarmsTab.handleNewAlarm p d e a st = st
  ∨ AlarmsTab.alarmsRef (AlarmsTab.handleNewAlarm p d e a st)
    = JS.sort_desc AlarmsTab.createdTime
        (AlarmsTab.formattedAlarm e (AlarmsTab.shown_id a ||| JS.fresh_id "alarm" e) a
         :: AlarmsTab.alarmsRef st).
Proof.
  unfold AlarmsTab.handleNewAlarm.
  destruct (AlarmsTab.filtered_out p _) as [[|]|]; [by left| |by left].
  destruct (AlarmsTab.filtered_out d _) as [[|]|]; [by left| |by left].
  destruct (0 <=? _); [by left|by right].
Qed.

(** X17 (the merge loses no record).  [handleNewAlarm] never removes or
    changes a record of the tab: the list it leaves is the list it found, or
    a rearrangement of that list with the record of the new alarm added. *)
Theorem handleNewAlarm_keeps_records
    (p d : JsVal) (e : JS.Env) (a : JsObj) (st : AlarmsTab.State) :
  let shown := AlarmsTab.alarmsRef (AlarmsTab.handleNewAlarm p d e a st) in
  shown = AlarmsTab.alarmsRef st
  ∨ shown ≡ₚ AlarmsTab.formattedAlarm e (AlarmsTab.shown_id a ||| JS.fresh_id "alarm" e) a
             :: AlarmsTab.alarmsRef st.
Proof.
  cbn zeta. destruct (handleNewAlarm_cases p d e a st) as [-> | ->]; [by left|right].
  apply sort_desc_perm.
Qed.

Lemma handleNewAlarm_stored
    (p d : JsVal) (e : JS.Env) (a : JsObj) (st : AlarmsTab.State) :
  JS.truthy (AlarmsTab.shown_id a) = true →
  (∃ r, r ∈ AlarmsTab.alarmsRef st ∧ JS.get r "_id" = AlarmsTab.shown_id a) →
  AlarmsTab.handleNewAlarm p d e a st = st.
Proof.
  intros Hid (r & Hr & Hrid). unfold AlarmsTab.handleNewAlarm.
  destruct (AlarmsTab.filtered_out p _) as [[|]|]; [done| |done].
  destruct (AlarmsTab.filtered_out d _) as [[|]|]; [done| |done].
  rewrite findIndex_nonneg. fold (AlarmsTab.shown_id a). rewrite (or_truthy_l _ _ Hid).
  assert (existsb (AlarmsTab.matches e (AlarmsTab.shown_id a) a) (AlarmsTab.alarmsRef st)
          = true) as Hx; [|by rewrite Hx].
  apply existsb_exists. exists r. split; [by apply list_elem_of_In|].
  unfold AlarmsTab.matches.
  unfold JS.strict_eq at 1. by rewrite bool_decide_eq_true_2.
Qed.

Lemma handleNewAlarm_stores
    (p d : JsVal) (e : JS.Env) (a : JsObj) (st : AlarmsTab.State) :
  JS.truthy (AlarmsTab.shown_id a) = true →
  AlarmsTab.handleNewAlarm p d e a st = st
  ∨ ((∃ r, r ∈ AlarmsTab.alarmsRef (AlarmsTab.handleNewAlarm p d e a st)
           ∧ JS.get r "_id" = AlarmsTab.shown_id a)
     ∧ length (AlarmsTab.alarmsRef (AlarmsTab.handleNewAlarm p d e a st))
       = S (length (AlarmsTab.alarmsRef st))).
Proof.
  intros Hid. destruct (handleNewAlarm_cases p d e a st) as [-> | ->]; [by left|right].
  rewrite (or_truthy_l _ _ Hid). split.
  - eexists. split.
    + rewrite sort_desc_perm. by left.
    + unfold AlarmsTab.formattedAlarm. by get_fields.
  - by rewrite sort_desc_perm.
Qed.

Lemma handleNewAlarm_stored_all
    (p d : JsVal) (es : list JS.Env) (a : JsObj) (st : AlarmsTab.State) :
  JS.truthy (AlarmsTab.shown_id a) = true →
  (∃ r, r ∈ AlarmsTab.alarmsRef st ∧ JS.get r "_id" = AlarmsTab.shown_id a) →
  foldl (λ s e, AlarmsTab.handleNewAlarm p d e a s) st es = st.
Proof.
  intros Hid Hst. induction es as [|e es IH]; [done|]. cbn [foldl].
  by rewrite handleNewAlarm_stored.
Qed.

(** X18 (repeated alarm with an id in the tab).  An alarm that carries an id,
    under [_id], [id], [alarmId] or [AlarmId], adds at most one record to the
    tab, however often and at whatever times it is delivered: once its
    record is in the list, every later delivery is dropped. *)
Theorem handleNewAlarm_identified_once
    (p d : JsVal) (es : list JS.Env) (a : JsObj) (st : AlarmsTab.State) :
  JS.truthy (JS.get a "_id" ||| JS.get a "id" ||| JS.get a "alarmId"
             ||| JS.get a "AlarmId") = true →
  (length (AlarmsTab.alarmsRef (foldl (λ s e, AlarmsTab.handleNewAlarm p d e a s) st es))
   ≤ S (length (AlarmsTab.alarmsRef st)))%nat.
Proof.
  intros Hid. revert st. induction es as [|e es IH]; intros st; cbn [foldl]; [lia|].
  destruct (handleNewAlarm_stores p d e a st Hid) as [-> | [Hst Hlen]]; [apply IH|].
  rewrite handleNewAlarm_stored_all by done. lia.
Qed.

Lemma handleNewAlarm_identified_once_witness :
  (length (AlarmsTab.alarmsRef
             (foldl (λ s e, AlarmsTab.handleNewAlarm JNull JNull e older_alarm s) loaded_tab
                [env1; env2; env1]))
   ≤ S (length (AlarmsTab.alarmsRef loaded_tab)))%nat.
Proof. apply handleNewAlarm_identified_once. by vm_compute. Defined.

Lemma sort_desc_nil_inv {A} (key : A → option Z) (l : list A) :
  JS.sort_desc key l = [] → l = [].
Proof.
  intros Hs. pose proof (sort_desc_perm key l) as Hp. rewrite Hs in Hp.
  by apply Permutation_nil_l in Hp.
Qed.

Lemma load_on_selection_cached
    (p d : JsVal) (envs : nat → JS.Env) (e : JS.Env) (api : AlarmsTab.Fetch → list JsObj)
    (st : AlarmsTab.State) :
  alarmsInitialDataLoaded (AlarmsTab.cache st) = true →
  alarmData (AlarmsTab.cache st) ≠ [] →
  currentPlant (AlarmsTab.cache st) = p → currentDevice (AlarmsTab.cache st) = d →
  AlarmsTab.load_on_selection p d envs e api st
  = {| AlarmsTab.alarmsRef := alarmData (AlarmsTab.cache st);
       AlarmsTab.cache := AlarmsTab.cache st |}.
Proof.
  intros Hl Hd Hp Hdev. unfold AlarmsTab.load_on_selection. cbn.
  rewrite Hl, Hp, Hdev. unfold JS.strict_eq. rewrite !bool_decide_eq_true_2 by done.
  destruct (alarmData (AlarmsTab.cache st)); [done|]. done.
Qed.

Lemma load_on_selection_shown
    (p d : JsVal) (envs : nat → JS.Env) (e : JS.Env) (api : AlarmsTab.Fetch → list JsObj)
    (st : AlarmsTab.State) :
  let first := AlarmsTab.load_on_selection p d envs e api st in
  AlarmsTab.alarmsRef first ≠ [] →
  alarmsInitialDataLoaded (AlarmsTab.cache first) = true
  ∧ alarmData (AlarmsTab.cache first) = AlarmsTab.alarmsRef first
  ∧ currentPlant (AlarmsTab.cache first) = p
  ∧ currentDevice (AlarmsTab.cache first) = d.
Proof.
  cbn zeta. unfold AlarmsTab.load_on_selection. cbn.
  destruct (alarmsInitialDataLoaded (AlarmsTab.cache st)
            && (0 <? Z.of_nat (length (alarmData (AlarmsTab.cache st))))
            && JS.strict_eq (currentPlant (AlarmsTab.cache st)) p
            && JS.strict_eq (currentDevice (AlarmsTab.cache st)) d) eqn:Hc.
  - cbn. intros _.
    apply andb_prop in Hc as [Hc Hd]. apply andb_prop in Hc as [Hc Hp].
    apply andb_prop in Hc as [Hl _].
    by apply bool_decide_eq_true in Hp, Hd.
  - destruct (api (AlarmsTab.fetch_for p d)) as [|x data] eqn:Hapi; [done|].
    unfold AlarmsTab.loadAlarmsData. cbn [AlarmsTab.alarmsRef AlarmsTab.cache].
    intros Hne.
    by destruct (JS.sort_desc AlarmsTab.createdTime _) as [|y sorted] eqn:Hs.
Qed.

Lemma load_on_selection_fetched
    (p' d' : JsVal) (envs : nat → JS.Env) (e : JS.Env)
    (api : AlarmsTab.Fetch → list JsObj) (st : AlarmsTab.State) :
  currentPlant (AlarmsTab.cache st) ≠ p' ∨ currentDevice (AlarmsTab.cache st) ≠ d' →
  let next := AlarmsTab.load_on_selection p' d' envs e api st in
  AlarmsTab.alarmsRef next
  = JS.sort_desc AlarmsTab.createdTime
      (imap (λ i alarm, AlarmsTab.formatFetched (envs i) alarm)
         (api (AlarmsTab.fetch_for p' d')))
  ∧ currentPlant (AlarmsTab.cache next) = p'
  ∧ currentDevice (AlarmsTab.cache next) = d'
  ∧ alarmData (AlarmsTab.cache next) = AlarmsTab.alarmsRef next.
Proof.
  intros Hne. cbn zeta. unfold AlarmsTab.load_on_selection. cbn.
  assert (JS.strict_eq (currentPlant (AlarmsTab.cache st)) p'
          && JS.strict_eq (currentDevice (AlarmsTab.cache st)) d' = false) as Hf.
  { unfold JS.strict_eq. destruct Hne as [Hne|Hne];
      rewrite (bool_decide_eq_false_2 _ Hne); [done|by rewrite andb_false_r]. }
  rewrite <- andb_assoc, Hf, andb_false_r.
  destruct (api (AlarmsTab.fetch_for p' d')) as [|x data]; [done|].
  unfold AlarmsTab.loadAlarmsData. cbn [AlarmsTab.alarmsRef AlarmsTab.cache].
  destruct (JS.sort_desc AlarmsTab.createdTime _) as [|y sorted] eqn:Hs; [|done].
  by apply sort_desc_nil_inv in Hs.
Qed.

(** X19 (the cached list comes back).  When a load for a selection has shown
    alarms, the next load for the same plant and device (the tab is left and
    entered again) shows the same list out of the cache and leaves the cache
    as it is, whatever the alarm service would answer: the service is not
    asked. *)
Theorem load_on_selection_round_trip
    (p d : JsVal) (envs1 envs2 : nat → JS.Env) (e1 e2 : JS.Env)
    (api1 api2 : AlarmsTab.Fetch → list JsObj) (st : AlarmsTab.State) :
  let first := AlarmsTab.load_on_selection p d envs1 e1 api1 st in
  AlarmsTab.alarmsRef first ≠ [] →
  AlarmsTab.load_on_selection p d envs2 e2 api2 first = first.
Proof.
  cbn zeta. intros Hne.
  destruct (load_on_selection_shown p d envs1 e1 api1 st Hne) as (Hl & Hd & Hp & Hdev).
  rewrite load_on_selection_cached; try done; [|by rewrite Hd].
  rewrite Hd. by destruct (AlarmsTab.load_on_selection p d envs1 e1 api1 st).
Qed.

Lemma load_on_selection_round_trip_witness :
  let api : AlarmsTab.Fetch → list JsObj := λ _, loaded_alarms in
  let first := AlarmsTab.load_on_selection (JStr "Plant D") JNull (λ _, env1) env1 api
                 empty_tab in
  AlarmsTab.load_on_selection (JStr "Plant D") JNull (λ _, env2) env2 (λ _, []) first = first.
Proof.
  cbn zeta.
  refine (load_on_selection_round_trip (JStr "Plant D") JNull (λ _, env1) (λ _, env2)
            env1 env2 (λ _, loaded_alarms) (λ _, []) empty_tab _).
  assert (Hne : currentPlant (AlarmsTab.cache empty_tab) ≠ JStr "Plant D"
                ∨ currentDevice (AlarmsTab.cache empty_tab) ≠ JNull) by (by left).
  destruct (load_on_selection_fetched (JStr "Plant D") JNull (λ _, env1) env1
              (λ _, loaded_alarms) empty_tab Hne) as [-> _].
  intros H. apply (f_equal length) in H. rewrite sort_desc_perm, length_imap in H.
  discriminate.
Defined.



(** *** The alarm controller *)

Section fixed_points.
Context (v d : JsVal).

Lemma or_fix2 : JS.truthy d = false → ((v ||| d) ||| JUndefined) ||| d = v ||| d.
Proof. unfold JS.or. intros Hd. destruct (JS.truthy v) eqn:Hv; cbn; by rewrite ?Hv, ?Hd. Qed.

Lemma or_fix3 :
  JS.truthy d = false → (((v ||| d) ||| JUndefined) ||| JUndefined) ||| d = v ||| d.
Proof. unfold JS.or. intros Hd. destruct (JS.truthy v) eqn:Hv; cbn; by rewrite ?Hv, ?Hd. Qed.

Lemma or_fix_truthy (x y z : JsVal) :
  JS.truthy d = true → (((v ||| d) ||| x) ||| y) ||| z = v ||| d.
Proof.
  intros Hd. assert (Hr : JS.truthy (v ||| d) = true) by (by apply truthy_or_r).
  by rewrite !(or_truthy_l (v ||| d) _ Hr).
Qed.

Lemma or_fix_context (c c' : JsVal) :
  JS.truthy d = false → JS.truthy c' = false ∨ c' = c →
  ((((v ||| c) ||| d) ||| JUndefined) ||| c') ||| d = (v ||| c) ||| d.
Proof.
  unfold JS.or. intros Hd Hc.
  destruct (JS.truthy v) eqn:Hv; cbn; rewrite ?Hv; [done|].
  destruct (JS.truthy c) eqn:Hcc; cbn; rewrite ?Hcc; [done|]. rewrite Hd. cbn.
  destruct Hc as [-> | ->]; [done|]. by rewrite Hcc.
Qed.

End fixed_points.

Lemma defined_or_fix (x y d z : JsVal) :
  d ≠ JUndefined →
  JS.defined_or (JS.defined_or x (JS.defined_or y d)) z = JS.defined_or x (JS.defined_or y d).
Proof. intros Hd. destruct x, y, d; done. Qed.

(** X21 (normalising twice).  A normalised alarm is a fixed point of the
    normalizer of the alarm controller: normalising it again, at any later
    time and with the same device context or none, gives it back unchanged
    (the clock reads as a text that is not empty). *)
Theorem normalizeAlarmObject_idempotent
    (e1 e2 : JS.Env) (alarm : JsObj) (contextDeviceId contextDeviceId' : JsVal) :
  JS.nowISO e1 ≠ "" →
  JS.truthy contextDeviceId' = false ∨ contextDeviceId' = contextDeviceId →
  AlarmController.normalizeAlarmObject e2
    (AlarmController.normalizeAlarmObject e1 alarm contextDeviceId) contextDeviceId'
  = AlarmController.normalizeAlarmObject e1 alarm contextDeviceId.
Proof.
  intros Hnow Hc. unfold AlarmController.normalizeAlarmObject. get_fields.
  rewrite (or_truthy_l (_ ||| JS.fresh_id "alarm" e1))
    by apply truthy_or_r, fresh_id_truthy.
  rewrite !or_fix2, or_fix3 by done.
  rewrite or_fix_truthy by (cbn; by rewrite bool_decide_eq_false_2).
  rewrite or_fix_context by done.
  by rewrite !defined_or_fix.
Qed.

Lemma normalizeAlarmObject_idempotent_witness :
  AlarmController.normalizeAlarmObject env2
    (AlarmController.normalizeAlarmObject env1 doc_lower (JStr "esp32_04")) JNull
  = AlarmController.normalizeAlarmObject env1 doc_lower (JStr "esp32_04").
Proof. apply normalizeAlarmObject_idempotent; [done|by left]. Defined.

Lemma normalizeAlarmObject_fields (e : JS.Env) (alarm : JsObj) (c : JsVal) :
  dom (AlarmController.normalizeAlarmObject e alarm c) = AlarmController.canonical_fields.
Proof.
  unfold AlarmController.normalizeAlarmObject, AlarmController.canonical_fields.
  rewrite dom_list_to_map_L. done.
Qed.

(** X22 (the replies carry normalised alarms).  Every alarm in a reply of
    [getAllAlarms], [getAlarmsByDevice] or [getAlarmsByPlantAndDevice] has
    the ten fields of a normalised alarm and no other field, whatever the
    stored document held. *)
Theorem replies_are_normalized
    (envs : nat → JS.Env) (deviceId : string) (plantName deviceName : option string)
    (telemetryDB : option AlarmController.Found) (found : option (list JsObj))
    (alarm : JsObj) :
  alarm ∈ AlarmController.alarms_of (AlarmController.getAllAlarms envs telemetryDB)
  ∨ alarm ∈ AlarmController.alarms_of
      (AlarmController.getAlarmsByDevice envs deviceId telemetryDB)
  ∨ alarm ∈ AlarmController.alarms_of
      (AlarmController.getAlarmsByPlantAndDevice envs plantName deviceName found) →
  dom alarm = AlarmController.canonical_fields.
Proof.
  assert (Hall : ∀ (f : nat → JsObj → JsVal) l,
            alarm ∈ imap (λ i a, AlarmController.normalizeAlarmObject (envs i) a (f i a)) l →
            dom alarm = AlarmController.canonical_fields).
  { intros f l (i & a & -> & _)%elem_of_lookup_imap. apply normalizeAlarmObject_fields. }
  intros [H|[H|H]].
  - unfold AlarmController.getAllAlarms in H. destruct telemetryDB as [db|];
      [|by apply elem_of_nil in H].
    destruct (AlarmController.matching db), (AlarmController.alternative db) as [[|??]|];
      cbn [AlarmController.alarms_of] in H; unfold AlarmController.normalize_each in H;
      by apply (Hall (λ i _, JNum (Z.of_nat i))) in H.
  - unfold AlarmController.getAlarmsByDevice in H.
    destruct (negb _); [by apply elem_of_nil in H|].
    destruct telemetryDB as [db|]; [|by apply elem_of_nil in H].
    destruct (AlarmController.matching db), (AlarmController.alternative db) as [[|??]|];
      cbn [AlarmController.alarms_of] in H; unfold AlarmController.normalize_with in H;
      by apply (Hall (λ _ _, JStr deviceId)) in H.
  - unfold AlarmController.getAlarmsByPlantAndDevice in H.
    destruct plantName as [[|??]|]; try (by apply elem_of_nil in H).
    destruct found as [[|??]|]; try (by apply elem_of_nil in H).
    cbn [AlarmController.alarms_of] in H. unfold AlarmController.normalize_with in H.
    by apply (Hall (λ _ _, JNull)) in H.
Qed.

Lemma replies_are_normalized_witness :
  dom (AlarmController.normalizeAlarmObject env1 doc_upper (JNum 0))
  = AlarmController.canonical_fields.
Proof.
  apply (replies_are_normalized (λ _, env1) "" None None (Some found_alarms) None).
  left. unfold AlarmController.getAllAlarms, found_alarms, AlarmController.normalize_each.
  cbn [AlarmController.matching AlarmController.alternative AlarmController.alarms_of imap].
  by left.
Defined.

Lemma normalizeAlarmObject_DeviceId (e : JS.Env) (alarm : JsObj) (c : JsVal) :
  JS.get (AlarmController.normalizeAlarmObject e alarm c) "DeviceId"
  = JS.get alarm "DeviceId" ||| JS.get alarm "deviceId" ||| c ||| JStr "".
Proof. unfold AlarmController.normalizeAlarmObject. by get_fields. Qed.



(** X24 (the list endpoint and the position of an alarm).  In the reply of
    [getAllAlarms] the alarm at position [i] of the result is the normalised
    document at position [i]; [map] hands the normalizer that position as
    its device context, so that a document without device id comes out with
    the device id [i] when [i >= 1], and with the empty device id at
    position 0. *)
Theorem getAllAlarms_device_by_position
    (envs : nat → JS.Env) (db : AlarmController.Found) (i : nat) (alarm : JsObj) :
  AlarmController.matching db !! i = Some alarm →
  JS.truthy (JS.get alarm "DeviceId" ||| JS.get alarm "deviceId") = false →
  ∃ normalized,
    AlarmController.alarms_of (AlarmController.getAllAlarms envs (Some db)) !! i
    = Some normalized
    ∧ normalized = AlarmController.normalizeAlarmObject (envs i) alarm (JNum (Z.of_nat i))
    ∧ JS.get normalized "DeviceId" = if decide (i = 0%nat) then JStr "" else JNum (Z.of_nat i).
Proof.
  intros Hi Hd. unfold AlarmController.getAllAlarms.
  destruct (AlarmController.matching db) as [|a l] eqn:Hm; [done|].
  cbn [AlarmController.alarms_of].
  unfold AlarmController.normalize_each. rewrite list_lookup_imap, Hi.
  eexists. split; [reflexivity|]. split; [reflexivity|].
  cbn beta. rewrite normalizeAlarmObject_DeviceId.
  rewrite (or_falsy_l _ _ Hd). destruct i as [|i]; [done|].
  by destruct (decide (S i = 0%nat)).
Qed.

Lemma getAllAlarms_device_by_position_witness :
  ∃ normalized,
    AlarmController.alarms_of (AlarmController.getAllAlarms (λ _, env1) (Some found_alarms))
      !! 1%nat = Some normalized
    ∧ normalized = AlarmController.normalizeAlarmObject env1 unidentified_alarm (JNum 1)
    ∧ JS.get normalized "DeviceId" = JNum 1.
Proof.
  apply (getAllAlarms_device_by_position (λ _, env1) found_alarms 1 unidentified_alarm);
    by vm_compute.
Defined.

(** X25 (the client formats what the controller normalised).  On an alarm that
    the alarm controller normalised, the formatting of the initial load of
    the alarms tab changes nothing but the device name, and that only when it
    is empty: it becomes [Unknown Device]. *)
Theorem formatFetched_normalized
    (e1 e2 : JS.Env) (alarm : JsObj) (contextDeviceId : JsVal) :
  JS.nowISO e1 ≠ "" →
  let normalized := AlarmController.normalizeAlarmObject e1 alarm contextDeviceId in
  AlarmsTab.formatFetched e2 normalized
  = <["DeviceName" := JS.get normalized "DeviceName" ||| JStr "Unknown Device"]> normalized.
Proof.
  intros Hnow. cbn zeta.
  unfold AlarmsTab.formatFetched, AlarmController.normalizeAlarmObject. get_fields.
  rewrite (or_truthy_l (_ ||| JS.fresh_id "alarm" e1))
    by apply truthy_or_r, fresh_id_truthy.
  rewrite !or_fix2, !or_fix3 by done.
  rewrite or_fix_truthy by (cbn; by rewrite bool_decide_eq_false_2).
  rewrite !defined_or_fix by done. rewrite or_skip_undefined.
  symmetry.
  apply (insert_list_to_map_app [_; _; _; _; _; _] "DeviceName" _ _ [_; _; _]).
  cbn. rewrite !not_elem_of_cons. repeat split; try discriminate. apply not_elem_of_nil.
Qed.

Lemma formatFetched_normalized_witness :
  let normalized := AlarmController.normalizeAlarmObject env1 doc_upper JNull in
  AlarmsTab.formatFetched env2 normalized
  = <["DeviceName" := JS.get normalized "DeviceName" ||| JStr "Unknown Device"]> normalized.
Proof. by apply (formatFetched_normalized env1 env2 doc_upper JNull). Defined.

(** *** The retries of the alarm service *)

Lemma retried_dec (err : AlarmService.ApiError) :
  negb (AlarmService.isServerError err) && negb (AlarmService.isNetworkError err) = false
  ↔ AlarmService.retried err.
Proof.
  unfold AlarmService.retried.
  destruct (AlarmService.isServerError err), (AlarmService.isNetworkError err);
    cbn; split; try done; try (by left); try (by right); by intros [|].
Qed.

(** X26 (when a request succeeds).  [apiCallWithRetry] resolves with a
    response exactly when one of the first three attempts resolves with it
    and every attempt before that one was rejected with an error that is
    retried, a server error (5xx) or a network error. *)
Theorem apiCallWithRetry_succeeds (f : AlarmService.ApiCall) (response : AlarmService.Response) :
  AlarmService.apiCallWithRetry f = inl response
  ↔ ∃ attempt, (attempt ≤ 2)%nat ∧ f attempt = inl response
               ∧ ∀ earlier, (earlier < attempt)%nat →
                   ∃ err, f earlier = inr err ∧ AlarmService.retried err.
Proof.
  unfold AlarmService.apiCallWithRetry. cbn [AlarmService.retry_from]. split.
  - destruct (f 0%nat) as [r0|e0] eqn:H0.
    { intros [= ->]. exists 0%nat. repeat split; [lia|done|]. intros ? ?. lia. }
    destruct (negb _ && negb _) eqn:R0; [done|]. apply retried_dec in R0.
    destruct (f 1%nat) as [r1|e1] eqn:H1.
    { intros [= ->]. exists 1%nat. repeat split; [lia|done|].
      intros [|?] ?; [by eexists|lia]. }
    destruct (negb _ && negb _) eqn:R1; [done|]. apply retried_dec in R1.
    destruct (f 2%nat) as [r2|e2] eqn:H2.
    { intros [= ->]. exists 2%nat. repeat split; [lia|done|].
      intros [|[|?]] ?; [by eexists|by eexists|lia]. }
    by destruct (negb _ && negb _).
  - intros (attempt & Hle & Hok & Hbefore).
    destruct attempt as [|[|[|?]]]; [| | |lia].
    + by rewrite Hok.
    + destruct (Hbefore 0%nat) as (e0 & -> & R0%retried_dec); [lia|]. by rewrite R0, Hok.
    + destruct (Hbefore 0%nat) as (e0 & -> & R0%retried_dec); [lia|].
      destruct (Hbefore 1%nat) as (e1 & -> & R1%retried_dec); [lia|].
      by rewrite R0, R1, Hok.
Qed.

(** [apiCallWithRetry] never makes a fourth attempt: its outcome depends on
    the outcomes of the first three attempts only. *)
Theorem apiCallWithRetry_three_attempts (f g : AlarmService.ApiCall) :
  (∀ attempt, (attempt ≤ 2)%nat → f attempt = g attempt) →
  AlarmService.apiCallWithRetry f = AlarmService.apiCallWithRetry g.
Proof.
  intros H. unfold AlarmService.apiCallWithRetry. cbn [AlarmService.retry_from].
  rewrite <- !H by lia. done.
Qed.

Lemma apiCallWithRetry_three_attempts_witness :
  AlarmService.apiCallWithRetry
    (λ attempt, if decide (attempt ≤ 2)%nat then service_down attempt
                else service_empty attempt)
  = AlarmService.apiCallWithRetry service_down.
Proof.
  apply apiCallWithRetry_three_attempts. intros attempt Hle.
  by destruct (decide (attempt ≤ 2)%nat).
Defined.

(** *** Rooms and the alarm list of the server *)

Lemma client_event_grows (event : string) (arg : JsVal) (rooms : gset string) :
  rooms ⊆ Server.client_event event arg rooms.
Proof. unfold Server.client_event. repeat case_bool_decide; set_solver. Qed.

Lemma client_events_grow (events : list (string * JsVal)) (rooms : gset string) :
  rooms ⊆ Server.client_events events rooms.
Proof.
  revert rooms. induction events as [|ev events IH]; intros rooms; [done|].
  cbn. etrans; [apply (client_event_grows ev.1 ev.2)|apply IH].
Qed.

(** X27 (a subscriber gets the telemetry of its device).  A client that has
    sent [subscribe] for a device stays in the room of that device, as long
    as its connection lasts, whatever it sends afterwards (the server has no
    handler that leaves a room), and receives every later telemetry message
    of the device that the handler processes, as a [telemetry] event with
    the message as its payload: through the room of the device or, for the
    device that the server singles out, through the broadcast. *)
Theorem subscriber_receives_telemetry
    (id : string) (sockets : list string) (rooms : gset string)
    (later : list (string * JsVal)) (telemetryData : JsObj) :
  let deviceId := JS.get telemetryData "deviceId" ||| JS.get telemetryData "device" in
  let deviceName := JS.get telemetryData "deviceName" ||| JS.get telemetryData "DeviceName"
                    ||| deviceId in
  let rooms' := Server.client_events later (Server.client_event "subscribe" deviceId rooms) in
  is_Some (Server.isEsp32_04 deviceId deviceName telemetryData) →
  {| Server.target :=
       if default false (Server.isEsp32_04 deviceId deviceName telemetryData)
       then Server.Broadcast else Server.Room ("device:" +:+ JS.to_string deviceId);
     Server.event := "telemetry"; Server.payload := Server.Data telemetryData |}
  ∈ Server.received id rooms' (Server.route_telemetry sockets telemetryData).
Proof.
  cbn zeta. intros [esp Hesp]. unfold Server.received, Server.route_telemetry.
  rewrite Hesp. cbn [default]. apply list_elem_of_filter. split.
  - unfold Server.reaches. destruct esp; cbn [Server.target]; [done|].
    apply bool_decide_eq_true. apply client_events_grow.
    unfold Server.client_event. rewrite bool_decide_eq_true_2 by done. set_solver.
  - destruct esp; apply elem_of_app; left; by left.
Qed.

Lemma subscriber_receives_telemetry_witness :
  {| Server.target := Server.Room "device:esp32_01"; Server.event := "telemetry";
     Server.payload := Server.Data telemetry_esp32_01 |}
  ∈ Server.received "s1"
      (Server.client_events [("unsubscribe", JStr "esp32_01")]
         (Server.client_event "subscribe" (JStr "esp32_01") ∅))
      (Server.route_telemetry ["s1"; "s2"] telemetry_esp32_01).
Proof.
  apply (subscriber_receives_telemetry "s1" ["s1"; "s2"] ∅ [("unsubscribe", JStr "esp32_01")]
           telemetry_esp32_01).
  by eexists.
Defined.

Lemma received_one (id : string) (rooms : gset string) (em : Server.Emission) :
  length (filter (λ em, Server.reaches id rooms em = true) [em])
  = if Server.reaches id rooms em then 1%nat else 0%nat.
Proof.
  rewrite filter_cons, filter_nil.
  destruct (Server.reaches id rooms em); by destruct (decide _).
Qed.

(** X28 (how often a client receives an alarm).  Of one alarm message a client
    receives the [alarm] event once through the broadcast, once more when it
    is in the room of the device of the alarm, and once more when it is in
    the room of its plant: one to three times, always with the alarm as the
    payload. *)
Theorem alarm_deliveries (id : string) (rooms : gset string) (alarmData : JsObj) :
  let deviceId := JS.get alarmData "deviceId" ||| JS.get alarmData "DeviceId" in
  let deviceRoom := "device:" +:+ JS.to_string deviceId in
  let plantRoom := "plant:" +:+ JS.to_string (Server.alarm_plantId alarmData) in
  let got := Server.received id rooms (Server.route_alarm alarmData) in
  length got
  = (1 + (if JS.truthy deviceId && bool_decide (deviceRoom ∈ rooms) then 1 else 0)
     + (if bool_decide (plantRoom ∈ rooms) then 1 else 0))%nat
  ∧ (∀ em, em ∈ got →
       Server.event em = "alarm" ∧ Server.payload em = Server.Data alarmData).
Proof.
  cbn zeta. unfold Server.received, Server.route_alarm.
  set (deviceId := JS.get alarmData "deviceId" ||| JS.get alarmData "DeviceId").
  split.
  - rewrite !filter_app, !length_app.
    destruct (JS.truthy deviceId); cbn [andb]; rewrite ?filter_nil, ?received_one;
      unfold Server.reaches; cbn [Server.target length]; repeat case_bool_decide; done.
  - intros em [_ Hin]%list_elem_of_filter.
    apply elem_of_app in Hin as [Hin|Hin]; [|apply elem_of_app in Hin as [Hin|Hin]].
    + apply list_elem_of_singleton in Hin as ->. done.
    + destruct (JS.truthy deviceId); [|by apply elem_of_nil in Hin].
      apply list_elem_of_singleton in Hin as ->. done.
    + apply list_elem_of_singleton in Hin as ->. done.
Qed.

Lemma joined_resubscribe (pending : list string) (rooms : gset string) :
  Wire.joined (resubscribe <$> pending) rooms = Wire.device_rooms pending ∪ rooms.
Proof.
  revert rooms. induction pending as [|sub pending IH]; intros rooms.
  - unfold Wire.device_rooms. rewrite filter_nil. cbn [fmap list_fmap list_to_set foldr].
    by rewrite (left_id_L ∅ (∪)).
  - rewrite fmap_cons.
    change (Wire.joined (?x :: ?l) rooms) with (Wire.joined l (Wire.joined [x] rooms)).
    rewrite IH.
    assert (Hone : Wire.joined [resubscribe sub] rooms
                   = if JS.startsWith sub "plant-" then rooms
                     else {[ "device:" +:+ sub ]} ∪ rooms).
    { unfold resubscribe. by destruct (JS.startsWith sub "plant-"). }
    rewrite Hone. unfold Wire.device_rooms. rewrite filter_cons.
    destruct (JS.startsWith sub "plant-") eqn:Hp.
    + by rewrite decide_False.
    + rewrite decide_True by done. rewrite fmap_cons, list_to_set_cons.
      rewrite (assoc_L (∪)). f_equal. apply (comm_L (∪)).
Qed.

(** X29 (a plant subscription joins no room).  On a connected service a new
    device subscription of the socket service puts the client into the room
    of the device on the server, but a new plant subscription leaves the
    rooms of the client as they are: the service sends [subscribe-plant] and
    the server listens for [subscribePlant].  The same holds for the replay
    of the pending set by the connect handler: it joins the device room of
    every entry that does not start with [plant-], and no other room. *)
Theorem plant_subscription_joins_no_room (r : Request) (st : Service) (rooms : gset string) :
  valid_request r → is_Some (socket st) → connected st = true →
  request_key r ∉ pendingSubscriptions st →
  Wire.joined (effects_of (subscribe r) st) rooms
  = match r with
    | ReqDevice deviceId => {[ "device:" +:+ deviceId ]} ∪ rooms
    | ReqPlant _ => rooms
    end
  ∧ ∀ st', Wire.joined (effects_of replay_pending st') rooms
           = Wire.device_rooms (pendingSubscriptions st') ∪ rooms.
Proof.
  intros Hv Hs Hc Hn. split.
  - destruct r as [d|p]; cbn [valid_request request_key subscribe] in *.
    + destruct Hv as [Hne _].
      unfold effects_of, subscribeToDevice, bind, read, tell, modify. cbn.
      rewrite (bool_decide_eq_false_2 (d = "")) by done. cbn.
      rewrite (bool_decide_eq_false_2 _ Hn).
      rewrite (bool_decide_eq_true_2 _ Hs), Hc. cbn. done.
    + unfold effects_of, subscribeToPlant, bind, read, tell, modify. cbn.
      assert (negb (JS.truthy p) && negb (JS.strict_eq p (JNum 0)) = false) as ->.
      { destruct Hv as [->| ->]; [done|]. by rewrite andb_comm. }
      rewrite (bool_decide_eq_false_2 _ Hn).
      rewrite (bool_decide_eq_true_2 _ Hs), Hc. cbn. done.
  - intros st'. unfold replay_pending, effects_of, bind, read, tell. cbn.
    rewrite ?app_nil_r. apply joined_resubscribe.
Qed.

Lemma plant_subscription_joins_no_room_witness :
  effects_of (subscribe (ReqPlant (JNum 2))) connected_service
  = [Emit "subscribe-plant" (JNum 2)]
  ∧ Wire.joined (effects_of (subscribe (ReqPlant (JNum 2))) connected_service) ∅ = ∅.
Proof.
  split; [by vm_compute|].
  assert (Hv : valid_request (ReqPlant (JNum 2))) by (by left).
  refine (proj1 (plant_subscription_joins_no_room (ReqPlant (JNum 2)) connected_service ∅
                   Hv _ _ _)); [by eexists|reflexivity|apply not_elem_of_nil].
Defined.



